(** * warrant: the SQL data-access layer

    A shallow embedding of [pkg/database/sql.go] (transaction scope manager,
    capability handles, error classification) and of
    [pkg/authz/objecttype/mysql.go] (the object type repository and its
    keyset pagination query), followed by the properties of the
    specification stated over that embedding.

    Conventions.
    - A Go [error] interface value is an [option error]; [None] is [nil].
    - Code with effects runs in the monad [M]: it reads and extends a
      chronological log of every call made to the database driver and to the
      logger, and it finishes normally or panicking.
    - The driver (sqlx, database/sql and the server behind them) is not part
      of the repository; it is a [Driver] record whose answers may depend on
      everything that happened before. *)

From Stdlib Require Import String Ascii List ZArith Bool Arith Lia.
From Stdlib Require Import Sorted Permutation.
Import ListNotations.
Local Open Scope string_scope.
Local Open Scope list_scope.

(** ** Values bound to statements and read from rows *)

Inductive value : Type :=
  | VNull
  | VInt (z : Z)
  | VStr (s : string)
  | VTime (t : Z).

Definition row : Type := list (string * value).

(** [sql.Result] *)
Record Result : Type := mkResult {
  LastInsertId : Z;
  RowsAffected : Z
}.

(** ** Errors: [database/sql], [github.com/pkg/errors], [pkg/service] *)

Inductive error : Type :=
  | ErrNoRows                                   (* the sentinel sql.ErrNoRows *)
  | DriverError (msg : string)                  (* any other error value of the driver *)
  | withMessage (cause : error) (msg : string)  (* pkg/errors *)
  | withStack (inner : error)                   (* pkg/errors *)
  | RecordNotFoundError (typ : string) (key : value).
      (* the typed not-found result of service.NewRecordNotFoundError, a
         function of pkg/service *)

(** [errors.Wrap]: nil stays nil, anything else gets a message and a stack. *)
Definition Wrap (err : option error) (message : string) : option error :=
  match err with
  | None => None
  | Some e => Some (withStack (withMessage e message))
  end.

(** [errors.Cause]: follow the causer chain to the innermost error. *)
Fixpoint Cause (e : error) : error :=
  match e with
  | withMessage c _ => Cause c
  | withStack i => Cause i
  | _ => e
  end.

(** [err == sql.ErrNoRows] on interface values: identity with the sentinel. *)
Definition is_ErrNoRows (e : error) : bool :=
  match e with
  | ErrNoRows => true
  | _ => false
  end.

(** ** Contexts *)

(** [type SqlTx struct { Tx *sqlx.Tx }]; a physical transaction is named by
    its number. *)
Record SqlTx : Type := mkSqlTx { Tx : nat }.

Inductive ctxKey : Type :=
  | txKey
  | otherKey (name : string).

Inductive ctxVal : Type :=
  | CtxSqlTx (tx : SqlTx)      (* a *SqlTx *)
  | CtxOther (v : value).      (* a value of any other dynamic type *)

Definition ctxKey_eqb (a b : ctxKey) : bool :=
  match a, b with
  | txKey, txKey => true
  | otherKey x, otherKey y => String.eqb x y
  | _, _ => false
  end.

(** A [context.Context] is the chain of values added by [context.WithValue],
    innermost first. *)
Definition context : Type := list (ctxKey * ctxVal).

Definition Background : context := [].

Definition WithValue (ctx : context) (k : ctxKey) (v : ctxVal) : context :=
  (k, v) :: ctx.

Fixpoint Value (ctx : context) (k : ctxKey) : option ctxVal :=
  match ctx with
  | [] => None
  | (k', v) :: parent => if ctxKey_eqb k' k then Some v else Value parent k
  end.

(** [tx, ok := ctx.Value(txKey{}).( *SqlTx)] *)
Definition tx_of_context (ctx : context) : option SqlTx :=
  match Value ctx txKey with
  | Some (CtxSqlTx tx) => Some tx
  | _ => None
  end.

(** ** The world: a log of driver and logger calls *)

Inductive handle : Type :=
  | OnDB               (* the pooled *sqlx.DB *)
  | OnTx (tx : nat).   (* a *sqlx.Tx *)

Inductive opkind : Type :=
  | OpExec | OpGet | OpNamedExec | OpPrepare | OpQuery | OpQueryRow | OpSelect.

Inductive event : Type :=
  | EvBeginx (res : option error)
  | EvCommit (tx : nat) (res : option error)
  | EvRollback (tx : nat) (res : option error)
  | EvLog (msg : string) (err : error)
  | EvStmt (h : handle) (op : opkind) (query : string) (args : list value)
  | EvNamedStmt (h : handle) (query : string) (arg : row).

Definition World : Type := list event.

Record Driver : Type := mkDriver {
  drv_Rebind : string -> string;
  drv_Beginx : World -> option error;
  drv_Commit : nat -> World -> option error;
  drv_Rollback : nat -> World -> option error;
  drv_Exec : handle -> string -> list value -> World -> Result * option error;
  drv_NamedExec : handle -> string -> row -> World -> Result * option error;
  drv_Prepare : handle -> string -> World -> option error;
  drv_Get : handle -> string -> list value -> World -> row * option error;
  drv_Query : handle -> string -> list value -> World -> list row * option error;
  drv_QueryRow : handle -> string -> list value -> World -> row * option error;
  drv_Select : handle -> string -> list value -> World -> list row * option error;
  drv_Now : World -> Z
}.

Definition is_begin (e : event) : bool :=
  match e with EvBeginx _ => true | _ => false end.

Definition is_commit (e : event) : bool :=
  match e with EvCommit _ _ => true | _ => false end.

Definition is_rollback (e : event) : bool :=
  match e with EvRollback _ _ => true | _ => false end.

Definition begins (w : World) : nat := length (filter is_begin w).
Definition commits (w : World) : nat := length (filter is_commit w).
Definition rollbacks (w : World) : nat := length (filter is_rollback w).

(** ** The monad of effectful code *)

(** The value a running panic carries.  [PanicNil] is [panic(nil)] as Go
    before 1.21, or a later Go run with [panicnil=1], raises it: a panic
    whose value is nil.  Since Go 1.21 [panic(nil)] raises a
    [*runtime.PanicNilError] instead, a value that is not nil, and no unit
    of work ends in [PanicNil]. *)
Inductive panic_value : Type :=
  | PanicNil
  | PanicValue (v : value)
  | PanicError (e : error).

(** [recover()] called by a deferred closure while the panic [p] is in
    flight: the panic stops and its value is returned, nil for a nil
    panic. *)
Definition recover_of (p : panic_value) : option panic_value :=
  match p with
  | PanicNil => None
  | _ => Some p
  end.

Inductive outcome (A : Type) : Type :=
  | Normal (a : A)
  | Panicking (p : panic_value).
Arguments Normal {A} a.
Arguments Panicking {A} p.

Definition M (A : Type) : Type := World -> outcome A * World.

Definition ret {A} (a : A) : M A := fun w => (Normal a, w).

Definition bind {A B} (m : M A) (k : A -> M B) : M B :=
  fun w =>
    match m w with
    | (Normal a, w1) => k a w1
    | (Panicking p, w1) => (Panicking p, w1)
    end.

Definition panic {A} (p : panic_value) : M A := fun w => (Panicking p, w).

Declare Scope go_scope.
Delimit Scope go_scope with go.
Notation "x <- m ;; k" := (bind m (fun x => k))
  (at level 100, m at next level, right associativity) : go_scope.
Notation "m ;;; k" := (bind m (fun _ => k))
  (at level 100, right associativity) : go_scope.
Local Open Scope go_scope.

(** A call of the driver: the answer is computed from the history, and the
    call is appended to it. *)
Definition call {A} (answer : World -> A) (ev : A -> event) : M A :=
  fun w => let a := answer w in (Normal a, w ++ [ev a]).

(** [log.Err(err).Msg(msg)] *)
Definition log_Err (err : error) (msg : string) : M unit :=
  fun w => (Normal tt, w ++ [EvLog msg err]).

(** [defer d(); body], where the function ends in [return err] and its
    result is unnamed.  The result value is fixed by the [return] statement
    before the deferred closure runs; the closure reads and writes the
    local variable [err] only.  [err0] is the value of the local when the
    body panics before assigning it.  The closure calls [recover()] first
    and is handed what that call returns: nil when the body did not panic
    and when it panicked with nil.  A closure that recovers without
    panicking again makes the function return its zero result. *)
Definition with_defer
    (d : option panic_value -> option error -> M (option error))
    (err0 : option error) (body : M (option error)) : M (option error) :=
  fun w =>
    match body w with
    | (Normal err, w1) =>
        match d None err w1 with
        | (Normal _, w2) => (Normal err, w2)
        | (Panicking p, w2) => (Panicking p, w2)
        end
    | (Panicking p, w1) =>
        match d (recover_of p) err0 w1 with
        | (Normal _, w2) => (Normal None, w2)
        | (Panicking p', w2) => (Panicking p', w2)
        end
    end.

(** ** pkg/database/sql.go

    The file is embedded as it stands in the first of its two copies.  The
    second copy, under [server/], has the same [WithinTransaction] and the
    same classification of errors; it does not rebind statements and says
    "mysql" for "sql" in its messages. *)

Section Database.

Variable drv : Driver.

Definition Rebind (query : string) : string := drv_Rebind drv query.

(** [ds.DB.Beginx()]: the new transaction is numbered by the begins so far. *)
Definition Beginx : M (nat * option error) :=
  fun w =>
    let res := drv_Beginx drv w in
    (Normal (begins w, res), w ++ [EvBeginx res]).

Definition tx_Commit (tx : nat) : M (option error) :=
  call (drv_Commit drv tx) (EvCommit tx).

Definition tx_Rollback (tx : nat) : M (option error) :=
  call (drv_Rollback drv tx) (EvRollback tx).

Definition log_if_err (err : option error) (msg : string) : M unit :=
  match err with
  | Some e => log_Err e msg
  | None => ret tt
  end.

(** The closure deferred by [WithinTransaction]; [recovered] is the result
    of [recover()], [err] the enclosing function's local variable.  The
    value returned is the final content of that local. *)
Definition deferred (tx : nat) (recovered : option panic_value)
    (err : option error) : M (option error) :=
  match recovered with
  | Some p =>
      err <- tx_Rollback tx ;;
      log_if_err err "error rolling back sql transaction" ;;;
      panic p
  | None =>
      match err with
      | Some _ =>
          err <- tx_Rollback tx ;;
          log_if_err err "error rolling back sql transaction" ;;;
          ret err
      | None =>
          err <- tx_Commit tx ;;
          log_if_err err "error committing sql transaction" ;;;
          ret err
      end
  end.

Definition WithinTransaction (ctx : context)
    (txFunc : context -> M (option error)) : M (option error) :=
  match tx_of_context ctx with
  | Some _ =>
      (* If transaction already started, re-use it *)
      err <- txFunc ctx ;;
      ret err
  | None =>
      r <- Beginx ;;
      match r with
      | (_, Some e) => ret (Wrap (Some e) "Error beginning sql transaction")
      | (tx, None) =>
          with_defer (deferred tx) None
            (txFunc (WithValue ctx txKey (CtxSqlTx (mkSqlTx tx))))
      end
  end.

(** *** The transaction handle: methods of [SqlTx] *)

Definition SqlTx_ExecContext (q : SqlTx) (ctx : context) (query : string)
    (args : list value) : M (Result * option error) :=
  let query := Rebind query in
  r <- call (drv_Exec drv (OnTx (Tx q)) query args)
            (fun _ => EvStmt (OnTx (Tx q)) OpExec query args) ;;
  let '(result, err) := r in
  match err with
  | Some e =>
      if is_ErrNoRows e then ret (result, err)
      else ret (result, Wrap err "sql error")
  | None => ret (result, err)
  end.

Definition SqlTx_GetContext (q : SqlTx) (ctx : context) (query : string)
    (args : list value) : M (row * option error) :=
  let query := Rebind query in
  r <- call (drv_Get drv (OnTx (Tx q)) query args)
            (fun _ => EvStmt (OnTx (Tx q)) OpGet query args) ;;
  let '(dest, err) := r in
  match err with
  | Some e =>
      if is_ErrNoRows e then ret (dest, err)
      else ret (dest, Wrap err "sql error")
  | None => ret (dest, err)
  end.

Definition SqlTx_NamedExecContext (q : SqlTx) (ctx : context) (query : string)
    (arg : row) : M (Result * option error) :=
  let query := Rebind query in
  r <- call (drv_NamedExec drv (OnTx (Tx q)) query arg)
            (fun _ => EvNamedStmt (OnTx (Tx q)) query arg) ;;
  let '(result, err) := r in
  match err with
  | Some e =>
      if is_ErrNoRows e then ret (result, err)
      else ret (result, Wrap err "sql error")
  | None => ret (result, err)
  end.

(** A prepared statement is represented by its text. *)
Definition SqlTx_PrepareContext (q : SqlTx) (ctx : context) (query : string)
    : M (string * option error) :=
  let query := Rebind query in
  err <- call (drv_Prepare drv (OnTx (Tx q)) query)
              (fun _ => EvStmt (OnTx (Tx q)) OpPrepare query []) ;;
  match err with
  | Some _ => ret (query, Wrap err "sql error")
  | None => ret (query, err)
  end.

Definition SqlTx_QueryContext (q : SqlTx) (ctx : context) (query : string)
    (args : list value) : M (list row * option error) :=
  let query := Rebind query in
  r <- call (drv_Query drv (OnTx (Tx q)) query args)
            (fun _ => EvStmt (OnTx (Tx q)) OpQuery query args) ;;
  let '(rows, err) := r in
  match err with
  | Some e =>
      if is_ErrNoRows e then ret (rows, err)
      else ret (rows, Wrap err "sql error")
  | None => ret (rows, err)
  end.

(** A [*sql.Row] carries its error until it is scanned. *)
Definition SqlTx_QueryRowContext (q : SqlTx) (ctx : context) (query : string)
    (args : list value) : M (row * option error) :=
  let query := Rebind query in
  call (drv_QueryRow drv (OnTx (Tx q)) query args)
       (fun _ => EvStmt (OnTx (Tx q)) OpQueryRow query args).

Definition SqlTx_SelectContext (q : SqlTx) (ctx : context) (query : string)
    (args : list value) : M (list row * option error) :=
  let query := Rebind query in
  r <- call (drv_Select drv (OnTx (Tx q)) query args)
            (fun _ => EvStmt (OnTx (Tx q)) OpSelect query args) ;;
  let '(dest, err) := r in
  match err with
  | Some e =>
      if is_ErrNoRows e then ret (dest, err)
      else ret (dest, Wrap err "sql error")
  | None => ret (dest, err)
  end.

(** *** The two implementations of [SqlQueryable] *)

Inductive SqlQueryable : Type :=
  | QueryableTx (tx : SqlTx)   (* the *SqlTx found in the context *)
  | QueryableDB.               (* ds.DB, the *sqlx.DB itself *)

Definition getQueryableFromContext (ctx : context) : SqlQueryable :=
  match tx_of_context ctx with
  | Some tx => QueryableTx tx
  | None => QueryableDB
  end.

Definition queryable_ExecContext (queryable : SqlQueryable) (ctx : context)
    (query : string) (args : list value) : M (Result * option error) :=
  match queryable with
  | QueryableTx q => SqlTx_ExecContext q ctx query args
  | QueryableDB =>
      call (drv_Exec drv OnDB query args) (fun _ => EvStmt OnDB OpExec query args)
  end.

Definition queryable_GetContext (queryable : SqlQueryable) (ctx : context)
    (query : string) (args : list value) : M (row * option error) :=
  match queryable with
  | QueryableTx q => SqlTx_GetContext q ctx query args
  | QueryableDB =>
      call (drv_Get drv OnDB query args) (fun _ => EvStmt OnDB OpGet query args)
  end.

Definition queryable_NamedExecContext (queryable : SqlQueryable) (ctx : context)
    (query : string) (arg : row) : M (Result * option error) :=
  match queryable with
  | QueryableTx q => SqlTx_NamedExecContext q ctx query arg
  | QueryableDB =>
      call (drv_NamedExec drv OnDB query arg) (fun _ => EvNamedStmt OnDB query arg)
  end.

Definition queryable_PrepareContext (queryable : SqlQueryable) (ctx : context)
    (query : string) : M (string * option error) :=
  match queryable with
  | QueryableTx q => SqlTx_PrepareContext q ctx query
  | QueryableDB =>
      err <- call (drv_Prepare drv OnDB query)
                  (fun _ => EvStmt OnDB OpPrepare query []) ;;
      ret (query, err)
  end.

Definition queryable_QueryContext (queryable : SqlQueryable) (ctx : context)
    (query : string) (args : list value) : M (list row * option error) :=
  match queryable with
  | QueryableTx q => SqlTx_QueryContext q ctx query args
  | QueryableDB =>
      call (drv_Query drv OnDB query args) (fun _ => EvStmt OnDB OpQuery query args)
  end.

Definition queryable_QueryRowContext (queryable : SqlQueryable) (ctx : context)
    (query : string) (args : list value) : M (row * option error) :=
  match queryable with
  | QueryableTx q => SqlTx_QueryRowContext q ctx query args
  | QueryableDB =>
      call (drv_QueryRow drv OnDB query args)
           (fun _ => EvStmt OnDB OpQueryRow query args)
  end.

Definition queryable_SelectContext (queryable : SqlQueryable) (ctx : context)
    (query : string) (args : list value) : M (list row * option error) :=
  match queryable with
  | QueryableTx q => SqlTx_SelectContext q ctx query args
  | QueryableDB =>
      call (drv_Select drv OnDB query args) (fun _ => EvStmt OnDB OpSelect query args)
  end.

(** *** The connection handle: methods of [SQL] *)

Definition SQL_ExecContext (ctx : context) (query : string)
    (args : list value) : M (Result * option error) :=
  let query := Rebind query in
  let queryable := getQueryableFromContext ctx in
  r <- queryable_ExecContext queryable ctx query args ;;
  let '(result, err) := r in
  match err with
  | Some e =>
      if is_ErrNoRows e then ret (result, err)
      else ret (result, Wrap err "Error when calling sql ExecContext")
  | None => ret (result, err)
  end.

Definition SQL_GetContext (ctx : context) (query : string)
    (args : list value) : M (row * option error) :=
  let query := Rebind query in
  let queryable := getQueryableFromContext ctx in
  r <- queryable_GetContext queryable ctx query args ;;
  let '(dest, err) := r in
  match err with
  | Some e =>
      if is_ErrNoRows e then ret (dest, err)
      else ret (dest, Wrap err "Error when calling sql GetContext")
  | None => ret (dest, err)
  end.

Definition SQL_NamedExecContext (ctx : context) (query : string)
    (arg : row) : M (Result * option error) :=
  let query := Rebind query in
  let queryable := getQueryableFromContext ctx in
  r <- queryable_NamedExecContext queryable ctx query arg ;;
  let '(result, err) := r in
  match err with
  | Some e =>
      if is_ErrNoRows e then ret (result, err)
      else ret (result, Wrap err "Error when calling sql NamedExecContext")
  | None => ret (result, err)
  end.

Definition SQL_PrepareContext (ctx : context) (query : string)
    : M (string * option error) :=
  let query := Rebind query in
  let queryable := getQueryableFromContext ctx in
  r <- queryable_PrepareContext queryable ctx query ;;
  let '(stmt, err) := r in
  match err with
  | Some _ => ret (stmt, Wrap err "Error when calling sql PrepareContext")
  | None => ret (stmt, err)
  end.

Definition SQL_QueryContext (ctx : context) (query : string)
    (args : list value) : M (list row * option error) :=
  let query := Rebind query in
  let queryable := getQueryableFromContext ctx in
  r <- queryable_QueryContext queryable ctx query args ;;
  let '(rows, err) := r in
  match err with
  | Some e =>
      if is_ErrNoRows e then ret (rows, err)
      else ret (rows, Wrap err "Error when calling sql QueryContext")
  | None => ret (rows, err)
  end.

Definition SQL_QueryRowContext (ctx : context) (query : string)
    (args : list value) : M (row * option error) :=
  let query := Rebind query in
  let queryable := getQueryableFromContext ctx in
  queryable_QueryRowContext queryable ctx query args.

Definition SQL_SelectContext (ctx : context) (query : string)
    (args : list value) : M (list row * option error) :=
  let query := Rebind query in
  let queryable := getQueryableFromContext ctx in
  r <- queryable_SelectContext queryable ctx query args ;;
  let '(dest, err) := r in
  match err with
  | Some e =>
      if is_ErrNoRows e then ret (dest, err)
      else ret (dest, Wrap err "Error when calling sql SelectContext")
  | None => ret (dest, err)
  end.

End Database.

(** ** pkg/middleware: list requests *)

Module middleware.

(** Modelled from the spec: [middleware.SortOrder] and its constants
    [SortOrderAsc] and [SortOrderDesc] are declared outside the given
    sources; the specification gives the type its two values, ascending and
    descending.  [SortOrder_text] is what [%s] prints for each. *)
Inductive SortOrder : Type :=
  | SortOrderAsc
  | SortOrderDesc.

Definition SortOrder_text (o : SortOrder) : string :=
  match o with
  | SortOrderAsc => "ASC"
  | SortOrderDesc => "DESC"
  end.

End middleware.

(** Modelled from the spec: [middleware.ListParams] is declared outside the
    given sources; these are the fields [List] reads, with the kinds of the
    specification's request descriptor.  [AfterValue] and [BeforeValue] are
    [interface{}] values, [None] being nil. *)
Record ListParams : Type := mkListParams {
  Query : string;
  SortBy : string;
  SortOrder : middleware.SortOrder;
  AfterId : string;
  AfterValue : option value;
  BeforeId : string;
  BeforeValue : option value;
  Limit : Z
}.

(** ** pkg/authz/objecttype/mysql.go *)

Local Open Scope string_scope.

Definition nl : string := String "010"%char "".
Definition tab : string := String "009"%char "".

(** The raw string literal [List] starts from. *)
Definition List_base_query : string :=
  nl ++ tab ++ tab ++ "SELECT id, typeId, definition, createdAt, updatedAt, deletedAt" ++
  nl ++ tab ++ tab ++ "FROM objectType" ++
  nl ++ tab ++ tab ++ "WHERE" ++
  nl ++ tab ++ tab ++ tab ++ "deletedAt IS NULL" ++
  nl ++ tab.

Definition DeleteByTypeId_query : string :=
  nl ++ tab ++ tab ++ tab ++ "UPDATE objectType" ++
  nl ++ tab ++ tab ++ tab ++ "SET" ++
  nl ++ tab ++ tab ++ tab ++ tab ++ "deletedAt = ?" ++
  nl ++ tab ++ tab ++ tab ++ "WHERE" ++
  nl ++ tab ++ tab ++ tab ++ tab ++ "typeId = ? AND" ++
  nl ++ tab ++ tab ++ tab ++ tab ++ "deletedAt IS NULL" ++
  nl ++ tab ++ tab.

Definition GetByTypeId_query : string :=
  nl ++ tab ++ tab ++ tab ++ "SELECT id, typeId, definition, createdAt, updatedAt, deletedAt" ++
  nl ++ tab ++ tab ++ tab ++ "FROM objectType" ++
  nl ++ tab ++ tab ++ tab ++ "WHERE" ++
  nl ++ tab ++ tab ++ tab ++ tab ++ "typeId = ? AND" ++
  nl ++ tab ++ tab ++ tab ++ tab ++ "deletedAt IS NULL" ++
  nl ++ tab ++ tab.

(** The statement text and the replacements, as [List] carries them from
    one block to the next. *)
Definition building : Type := (string * list value)%type.

(** [if listParams.Query != ""] (lines 117-121) *)
Definition List_search (listParams : ListParams) (b : building) : building :=
  let '(query, replacements) := b in
  if negb (Query listParams =? "") then
    let searchTermReplacement := VStr ("%" ++ Query listParams ++ "%") in
    (query ++ " AND typeId LIKE ?",
     (replacements ++ [searchTermReplacement; searchTermReplacement])%list)
  else b.

(** [if listParams.AfterId != ""] (lines 123-149) *)
Definition List_after (listParams : ListParams) (b : building) : building :=
  let '(query, replacements) := b in
  if negb (AfterId listParams =? "") then
    match AfterValue listParams with
    | Some afterValue =>
        match SortOrder listParams with
        | middleware.SortOrderAsc =>
            (query ++ " AND (" ++ SortBy listParams ++ " > ? OR (typeId > ? AND "
                   ++ SortBy listParams ++ " = ?))",
             (replacements ++ [afterValue; VStr (AfterId listParams); afterValue])%list)
        | _ =>
            (query ++ " AND (" ++ SortBy listParams ++ " < ? OR (typeId < ? AND "
                   ++ SortBy listParams ++ " = ?))",
             (replacements ++ [afterValue; VStr (AfterId listParams); afterValue])%list)
        end
    | None =>
        match SortOrder listParams with
        | middleware.SortOrderAsc =>
            (query ++ " AND typeId > ?", (replacements ++ [VStr (AfterId listParams)])%list)
        | _ =>
            (query ++ " AND typeId < ?", (replacements ++ [VStr (AfterId listParams)])%list)
        end
    end
  else b.

(** [if listParams.BeforeId != ""] (lines 151-177) *)
Definition List_before (listParams : ListParams) (b : building) : building :=
  let '(query, replacements) := b in
  if negb (BeforeId listParams =? "") then
    match BeforeValue listParams with
    | Some beforeValue =>
        match SortOrder listParams with
        | middleware.SortOrderAsc =>
            (query ++ " AND (" ++ SortBy listParams ++ " < ? OR (typeId < ? AND "
                   ++ SortBy listParams ++ " = ?))",
             (replacements ++ [beforeValue; VStr (BeforeId listParams); beforeValue])%list)
        | _ =>
            (query ++ " AND (" ++ SortBy listParams ++ " > ? OR (typeId > ? AND "
                   ++ SortBy listParams ++ " = ?))",
             (replacements ++ [beforeValue; VStr (BeforeId listParams); beforeValue])%list)
        end
    | None =>
        match SortOrder listParams with
        | middleware.SortOrderAsc =>
            (query ++ " AND typeId < ?", (replacements ++ [VStr (AfterId listParams)])%list)
        | _ =>
            (query ++ " AND typeId > ?", (replacements ++ [VStr (AfterId listParams)])%list)
        end
    end
  else b.

(** [if listParams.SortBy != "objectType"] (lines 179-185) *)
Definition List_order (listParams : ListParams) (b : building) : building :=
  let '(query, replacements) := b in
  if negb (SortBy listParams =? "objectType") then
    (query ++ " ORDER BY " ++ SortBy listParams ++ " "
           ++ middleware.SortOrder_text (SortOrder listParams)
           ++ ", typeId " ++ middleware.SortOrder_text (SortOrder listParams)
           ++ " LIMIT ?",
     (replacements ++ [VInt (Limit listParams)])%list)
  else
    (query ++ " ORDER BY typeId "
           ++ middleware.SortOrder_text (SortOrder listParams) ++ " LIMIT ?",
     (replacements ++ [VInt (Limit listParams)])%list).

(** The statement and the replacements [List] hands to [SelectContext]
    (lines 109-185). *)
Definition List_build (listParams : ListParams) : building :=
  List_order listParams
    (List_before listParams
      (List_after listParams
        (List_search listParams (List_base_query, [])))).

Section Repository.

Variable drv : Driver.

(** [time.Now().UTC()] *)
Definition time_Now : M value := fun w => (Normal (VTime (drv_Now drv w)), w).

Definition List (ctx : context) (listParams : ListParams)
    : M (list row * option error) :=
  let models : list row := [] in
  let '(query, replacements) := List_build listParams in
  r <- SQL_SelectContext drv ctx query replacements ;;
  let '(objectTypes, err) := r in
  match err with
  | Some e =>
      if is_ErrNoRows e then ret (models, None)
      else ret (models, Wrap err "Unable to get object types from mysql")
  | None => ret ((models ++ objectTypes)%list, None)
  end.

Definition GetByTypeId (ctx : context) (typeId : string)
    : M (row * option error) :=
  r <- SQL_GetContext drv ctx GetByTypeId_query [VStr typeId] ;;
  let '(objectType, err) := r in
  match err with
  | Some e =>
      if is_ErrNoRows e
      then ret (objectType, Some (RecordNotFoundError "ObjectType" (VStr typeId)))
      else ret (objectType,
                Wrap err ("Unable to get ObjectType with typeId " ++ typeId ++ " from mysql"))
  | None => ret (objectType, None)
  end.

Definition DeleteByTypeId (ctx : context) (typeId : string) : M (option error) :=
  now <- time_Now ;;
  r <- SQL_ExecContext drv ctx DeleteByTypeId_query [now; VStr typeId] ;;
  let '(_, err) := r in
  match err with
  | Some e =>
      if is_ErrNoRows e
      then ret (Some (RecordNotFoundError "ObjectType" (VStr typeId)))
      else ret err
  | None => ret None
  end.

End Repository.

(** ** The statements [List] builds, read as SQL

    [List] assembles text.  To say which rows a statement selects, the text
    is read back as a small syntax tree: [List_stmt] is the tree, [render]
    prints it, and [List_stmt_render] below shows that the print of the tree
    is, character for character, the text [List] builds.  The meaning given
    to a tree is that of SQL for this fragment: placeholders are bound to
    the arguments from left to right, a comparison with NULL or between
    values of different kinds is not true, and since the fragment has no
    negation a row is selected exactly when the condition evaluates to
    true. *)

Inductive cmpop : Type := OpLt | OpGt | OpEq.

Inductive expr : Type :=
  | ELike (col : string)               (* col LIKE ? *)
  | ECmp (col : string) (op : cmpop)   (* col op ? *)
  | EAnd (a b : expr)                  (* a AND b *)
  | EOr (a b : expr)                   (* a OR b *)
  | EParen (a : expr).                 (* (a) *)

Record select_stmt : Type := mkSelect {
  sel_where : list expr;   (* the conjuncts after [deletedAt IS NULL] *)
  sel_order : list (string * middleware.SortOrder)
}.

Definition cmpop_text (op : cmpop) : string :=
  match op with
  | OpLt => "<"
  | OpGt => ">"
  | OpEq => "="
  end.

Fixpoint render (e : expr) : string :=
  match e with
  | ELike c => c ++ " LIKE ?"
  | ECmp c op => c ++ " " ++ cmpop_text op ++ " ?"
  | EAnd a b => render a ++ " AND " ++ render b
  | EOr a b => render a ++ " OR " ++ render b
  | EParen a => "(" ++ render a ++ ")"
  end.

Fixpoint render_where (conjuncts : list expr) : string :=
  match conjuncts with
  | [] => ""
  | e :: rest => " AND " ++ render e ++ render_where rest
  end.

Definition render_term (t : string * middleware.SortOrder) : string :=
  fst t ++ " " ++ middleware.SortOrder_text (snd t).

Fixpoint render_order (terms : list (string * middleware.SortOrder)) : string :=
  match terms with
  | [] => ""
  | [t] => render_term t
  | t :: rest => render_term t ++ ", " ++ render_order rest
  end.

Definition render_stmt (s : select_stmt) : string :=
  List_base_query ++ render_where (sel_where s)
    ++ " ORDER BY " ++ render_order (sel_order s) ++ " LIMIT ?".

(** The operator a cursor uses: [after] follows the sort order, [before]
    runs against it. *)
Definition after_op (o : middleware.SortOrder) : cmpop :=
  match o with
  | middleware.SortOrderAsc => OpGt
  | middleware.SortOrderDesc => OpLt
  end.

Definition before_op (o : middleware.SortOrder) : cmpop :=
  match o with
  | middleware.SortOrderAsc => OpLt
  | middleware.SortOrderDesc => OpGt
  end.

(** [(sortBy op ? OR (typeId op ? AND sortBy = ?))] *)
Definition keyset_expr (sortBy : string) (op : cmpop) : expr :=
  EParen (EOr (ECmp sortBy op)
              (EParen (EAnd (ECmp "typeId" op) (ECmp sortBy OpEq)))).

Definition search_conjuncts (listParams : ListParams) : list expr :=
  if negb (Query listParams =? "") then [ELike "typeId"] else [].

Definition cursor_conjuncts (id : string) (v : option value) (sortBy : string)
    (op : cmpop) : list expr :=
  if negb (id =? "") then
    match v with
    | Some _ => [keyset_expr sortBy op]
    | None => [ECmp "typeId" op]
    end
  else [].

Definition order_terms (listParams : ListParams)
    : list (string * middleware.SortOrder) :=
  if negb (SortBy listParams =? "objectType")
  then [(SortBy listParams, SortOrder listParams); ("typeId", SortOrder listParams)]
  else [("typeId", SortOrder listParams)].

Definition List_stmt (listParams : ListParams) : select_stmt :=
  mkSelect
    (search_conjuncts listParams
     ++ cursor_conjuncts (AfterId listParams) (AfterValue listParams)
          (SortBy listParams) (after_op (SortOrder listParams))
     ++ cursor_conjuncts (BeforeId listParams) (BeforeValue listParams)
          (SortBy listParams) (before_op (SortOrder listParams)))%list
    (order_terms listParams).

(** The replacements each block of [List] appends. *)
Definition search_args (listParams : ListParams) : list value :=
  if negb (Query listParams =? "")
  then [VStr ("%" ++ Query listParams ++ "%"); VStr ("%" ++ Query listParams ++ "%")]
  else [].

Definition after_args (listParams : ListParams) : list value :=
  if negb (AfterId listParams =? "") then
    match AfterValue listParams with
    | Some afterValue => [afterValue; VStr (AfterId listParams); afterValue]
    | None => [VStr (AfterId listParams)]
    end
  else [].

Definition before_args (listParams : ListParams) : list value :=
  if negb (BeforeId listParams =? "") then
    match BeforeValue listParams with
    | Some beforeValue => [beforeValue; VStr (BeforeId listParams); beforeValue]
    | None => [VStr (AfterId listParams)]
    end
  else [].

(** *** Evaluation *)

Fixpoint column (r : row) (c : string) : value :=
  match r with
  | [] => VNull
  | (c', v) :: rest => if c' =? c then v else column rest c
  end.

(** Comparison of two values of one kind; strings compare byte-wise. *)
Definition compare_value (a b : value) : option comparison :=
  match a, b with
  | VInt x, VInt y => Some (Z.compare x y)
  | VTime x, VTime y => Some (Z.compare x y)
  | VStr x, VStr y => Some (String.compare x y)
  | _, _ => None
  end.

Definition holds (op : cmpop) (a b : value) : bool :=
  match compare_value a b, op with
  | Some Lt, OpLt => true
  | Some Gt, OpGt => true
  | Some Eq, OpEq => true
  | _, _ => false
  end.

(** [s LIKE p], with [%] for any run of characters and [_] for any one. *)
Fixpoint like (p s : string) : bool :=
  match p with
  | EmptyString => match s with EmptyString => true | _ => false end
  | String c p' =>
      if Ascii.eqb c "%"%char then
        (fix skip (t : string) : bool :=
           like p' t || match t with
                        | EmptyString => false
                        | String _ t' => skip t'
                        end) s
      else
        match s with
        | EmptyString => false
        | String d s' => (Ascii.eqb c "_"%char || Ascii.eqb c d) && like p' s'
        end
  end.

Definition like_value (v pattern : value) : bool :=
  match v, pattern with
  | VStr s, VStr p => like p s
  | _, _ => false
  end.

Fixpoint placeholders (e : expr) : nat :=
  match e with
  | ELike _ => 1
  | ECmp _ _ => 1
  | EAnd a b => placeholders a + placeholders b
  | EOr a b => placeholders a + placeholders b
  | EParen a => placeholders a
  end.

(** The truth of [e] on row [r], with the arguments left over. *)
Fixpoint eval (e : expr) (r : row) (args : list value) : bool * list value :=
  match e with
  | ELike c =>
      match args with
      | a :: rest => (like_value (column r c) a, rest)
      | [] => (false, [])
      end
  | ECmp c op =>
      match args with
      | a :: rest => (holds op (column r c) a, rest)
      | [] => (false, [])
      end
  | EAnd a b =>
      let '(x, args1) := eval a r args in
      let '(y, args2) := eval b r args1 in
      (x && y, args2)
  | EOr a b =>
      let '(x, args1) := eval a r args in
      let '(y, args2) := eval b r args1 in
      (x || y, args2)
  | EParen a => eval a r args
  end.

Fixpoint eval_where (conjuncts : list expr) (r : row) (args : list value)
    : bool * list value :=
  match conjuncts with
  | [] => (true, args)
  | e :: rest =>
      let '(x, args1) := eval e r args in
      let '(y, args2) := eval_where rest r args1 in
      (x && y, args2)
  end.

Definition where_placeholders (conjuncts : list expr) : nat :=
  fold_right (fun e n => placeholders e + n) 0 conjuncts.

Definition is_null (v : value) : bool :=
  match v with VNull => true | _ => false end.

(** [r1] may stand before [r2] under [ORDER BY terms].  Two values that
    do not compare (a NULL, or values of different kinds) decide nothing
    here and leave the decision to the next term; where the store places
    such rows is not modelled, and the properties of whole pages below are
    stated for tables whose sort values are of one kind. *)
Fixpoint row_leb (terms : list (string * middleware.SortOrder)) (r1 r2 : row)
    : bool :=
  match terms with
  | [] => true
  | (c, o) :: rest =>
      match compare_value (column r1 c) (column r2 c), o with
      | Some Lt, middleware.SortOrderAsc => true
      | Some Gt, middleware.SortOrderAsc => false
      | Some Lt, middleware.SortOrderDesc => false
      | Some Gt, middleware.SortOrderDesc => true
      | _, _ => row_leb rest r1 r2
      end
  end.

Fixpoint insert_row (terms : list (string * middleware.SortOrder)) (r : row)
    (sorted : list row) : list row :=
  match sorted with
  | [] => [r]
  | r' :: rest =>
      if row_leb terms r r' then r :: sorted
      else r' :: insert_row terms r rest
  end.

Definition order_by (terms : list (string * middleware.SortOrder))
    (rows : list row) : list row :=
  fold_right (insert_row terms) [] rows.

Inductive exec_error : Type :=
  | WrongArgumentCount (expected got : nat)
  | BadLimit.

(** Running a statement of this shape on a table.  A statement whose
    number of arguments is not its number of placeholders is refused, as
    [database/sql] does ("expected n arguments, got m").  Column names are
    not checked against the table: a name no row has reads as NULL, where
    the store refuses the statement. *)
Definition exec_select (table : list row) (s : select_stmt)
    (args : list value) : exec_error + list row :=
  let n := S (where_placeholders (sel_where s)) in
  if negb (length args =? n)%nat then inl (WrongArgumentCount n (length args))
  else
    match nth (where_placeholders (sel_where s)) args VNull with
    | VInt limit =>
        if (limit <? 0)%Z then inl BadLimit
        else
          let selected :=
            filter (fun r => is_null (column r "deletedAt")
                             && fst (eval_where (sel_where s) r args)) table in
          inr (firstn (Z.to_nat limit) (order_by (sel_order s) selected))
    | _ => inl BadLimit
    end.

(** The number of [?] in a text. *)
Fixpoint count_marks (s : string) : nat :=
  match s with
  | EmptyString => 0
  | String c s' => (if Ascii.eqb c "?"%char then 1 else 0) + count_marks s'
  end.

(** ** The rules of the specification, in its own words *)

(** Forward and backward cursor rule: [(sortField op value) OR
    (sortField = value AND id op cursorId)]. *)
Definition keyset_rule (op : cmpop) (sortValue value id cursorId : value) : bool :=
  holds op sortValue value || (holds OpEq sortValue value && holds op id cursorId).

(** What a capability operation may return for the error of the store: nil
    for nil, the sentinel for the sentinel, and for anything else that
    error under one or more messages. *)
Fixpoint wrapped (messages : list string) (e : error) : error :=
  match messages with
  | [] => e
  | m :: rest => withStack (withMessage (wrapped rest e) m)
  end.

Definition classified (underlying returned : option error) : Prop :=
  match underlying with
  | None => returned = None
  | Some e =>
      if is_ErrNoRows e then returned = Some ErrNoRows
      else exists m rest,
             returned = Some (wrapped (m :: rest) e)
             /\ is_ErrNoRows (wrapped (m :: rest) e) = false
             /\ Cause (wrapped (m :: rest) e) = Cause e
  end.

(** [run] finishes normally with the value of the store's answer and an
    error that is the classification of the store's error. *)
Definition passes_through {A : Type} (run : outcome (A * option error) * World)
    (answer : A * option error) : Prop :=
  exists returned w',
    run = (Normal (fst answer, returned), w')
    /\ classified (snd answer) returned.

(** ** Units of work *)

(** The handle and the statement text that reach the driver from a method
    of [SQL] called with [ctx]: inside a transaction the text is rebound
    once by [SQL] and once more by [SqlTx]. *)
Definition handle_of (ctx : context) : handle :=
  match tx_of_context ctx with
  | Some tx => OnTx (Tx tx)
  | None => OnDB
  end.

Definition sent_query (drv : Driver) (ctx : context) (query : string) : string :=
  match tx_of_context ctx with
  | Some _ => Rebind drv (Rebind drv query)
  | None => Rebind drv query
  end.

(** [n] calls of [WithinTransaction] inside one another around [work], each
    passing on the context it was given. *)
Fixpoint nested (drv : Driver) (n : nat) (work : context -> M (option error))
    : context -> M (option error) :=
  match n with
  | O => work
  | S k => fun ctx => WithinTransaction drv ctx (nested drv k work)
  end.

(** A unit of work that, run on a context carrying a transaction, begins,
    commits and rolls back nothing itself. *)
Definition tx_quiet (work : context -> M (option error)) : Prop :=
  forall ctx w,
    tx_of_context ctx <> None ->
    begins (snd (work ctx w)) = begins w
    /\ commits (snd (work ctx w)) = commits w
    /\ rollbacks (snd (work ctx w)) = rollbacks w.

(** ** Concrete stores and requests *)

(** A driver with fixed answers that leaves statements as they are. *)
Definition fixed_driver (onBegin onCommit onRollback : option error)
    (onExec : Result * option error) (onGet : row * option error)
    (onSelect : list row * option error) : Driver :=
  mkDriver (fun q => q)
    (fun _ => onBegin) (fun _ _ => onCommit) (fun _ _ => onRollback)
    (fun _ _ _ _ => onExec) (fun _ _ _ _ => onExec) (fun _ _ _ => snd onExec)
    (fun _ _ _ _ => onGet) (fun _ _ _ _ => onSelect) (fun _ _ _ _ => onGet)
    (fun _ _ _ _ => onSelect) (fun _ => 0%Z).

Definition healthy_driver : Driver :=
  fixed_driver None None None (mkResult 0 0, None) ([], None) ([], None).

Definition commit_fails : Driver :=
  fixed_driver None (Some (DriverError "connection lost")) None
    (mkResult 0 0, None) ([], None) ([], None).

Definition rollback_fails : Driver :=
  fixed_driver None None (Some (DriverError "connection lost"))
    (mkResult 0 0, None) ([], None) ([], None).

Definition work_ok : context -> M (option error) := fun _ => ret None.

Definition work_fails : context -> M (option error) :=
  fun _ => ret (Some (DriverError "duplicate entry")).

Definition work_panics : context -> M (option error) :=
  fun _ => panic (PanicValue (VStr "index out of range")).


Definition work_delete (drv : Driver) : context -> M (option error) :=
  fun txCtx => DeleteByTypeId drv txCtx "role".

(** A row of [objectType]; the sort value is stored in [createdAt]. *)
Definition objectType_row (sortValue : Z) (typeId : string) : row :=
  [("typeId", VStr typeId); ("createdAt", VInt sortValue); ("deletedAt", VNull)].

Definition typeIds (rows : list row) : list value :=
  map (fun r => column r "typeId") rows.

Definition selected_ids (res : exec_error + list row) : exec_error + list value :=
  match res with
  | inl e => inl e
  | inr rows => inr (typeIds rows)
  end.

(** What the store answers to the statement and replacements of [List]. *)
Definition List_selects (table : list row) (listParams : ListParams)
    : exec_error + list value :=
  selected_ids
    (exec_select table (List_stmt listParams) (snd (List_build listParams))).

(** The data set of the pagination scenarios: [(1,a),(1,b),(2,c),(3,d)]. *)
Definition four_rows : list row :=
  [objectType_row 1 "a"; objectType_row 1 "b";
   objectType_row 2 "c"; objectType_row 3 "d"].

Definition request (query : string) (sortBy : string)
    (afterId : string) (afterValue : option value)
    (beforeId : string) (beforeValue : option value) : ListParams :=
  mkListParams query sortBy middleware.SortOrderAsc
    afterId afterValue beforeId beforeValue 10.

(** afterId=a, afterValue=1 *)
Definition forward_request : ListParams :=
  request "" "createdAt" "a" (Some (VInt 1)) "" None.

(** beforeId=c, beforeValue=2 *)
Definition backward_request : ListParams :=
  request "" "createdAt" "" None "c" (Some (VInt 2)).

(** beforeId=c, no beforeValue *)
Definition backward_by_id_request : ListParams :=
  request "" "createdAt" "" None "c" None.

(** free text "a" with the forward cursor afterId=a, afterValue=1 *)
Definition search_forward_request : ListParams :=
  request "a" "createdAt" "a" (Some (VInt 1)) "" None.

(** free text "a" alone *)
Definition search_request : ListParams :=
  request "a" "createdAt" "" None "" None.


Local Open Scope list_scope.

(** What the deferred closure appends after the unit of work: the commit or
    rollback it attempts and, when that fails, the log entry. *)
Definition failure_log (msg : string) (res : option error) : World :=
  match res with
  | Some e => [EvLog msg e]
  | None => []
  end.

Definition rollback_events (drv : Driver) (tx : nat) (w : World) : World :=
  EvRollback tx (drv_Rollback drv tx w)
    :: failure_log "error rolling back sql transaction" (drv_Rollback drv tx w).

Definition commit_events (drv : Driver) (tx : nat) (w : World) : World :=
  EvCommit tx (drv_Commit drv tx w)
    :: failure_log "error committing sql transaction" (drv_Commit drv tx w).

(** The context the outermost call hands to its unit of work. *)
Definition child_context (ctx : context) (w : World) : context :=
  WithValue ctx txKey (CtxSqlTx (mkSqlTx (begins w))).

(** ** The rest of the object type repository *)

(** The part of the [Model] interface the repository reads. *)
Record Model : Type := mkModel {
  GetTypeId : string;
  GetDefinition : string
}.

Definition Create_query : string :=
  (nl ++ tab ++ tab ++ tab ++ "INSERT INTO objectType (" ++
   nl ++ tab ++ tab ++ tab ++ tab ++ "typeId," ++
   nl ++ tab ++ tab ++ tab ++ tab ++ "definition" ++
   nl ++ tab ++ tab ++ tab ++ ") VALUES (?, ?)" ++
   nl ++ tab ++ tab ++ tab ++ "ON DUPLICATE KEY UPDATE" ++
   nl ++ tab ++ tab ++ tab ++ tab ++ "definition = ?," ++
   nl ++ tab ++ tab ++ tab ++ tab ++ "createdAt = CURRENT_TIMESTAMP(6)," ++
   nl ++ tab ++ tab ++ tab ++ tab ++ "deletedAt = NULL" ++
   nl ++ tab ++ tab)%string.

Definition GetById_query : string :=
  (nl ++ tab ++ tab ++ tab ++ "SELECT id, typeId, definition, createdAt, updatedAt, deletedAt" ++
   nl ++ tab ++ tab ++ tab ++ "FROM objectType" ++
   nl ++ tab ++ tab ++ tab ++ "WHERE" ++
   nl ++ tab ++ tab ++ tab ++ tab ++ "id = ? AND" ++
   nl ++ tab ++ tab ++ tab ++ tab ++ "deletedAt IS NULL" ++
   nl ++ tab ++ tab)%string.

Definition UpdateByTypeId_query : string :=
  (nl ++ tab ++ tab ++ tab ++ "UPDATE objectType" ++
   nl ++ tab ++ tab ++ tab ++ "SET" ++
   nl ++ tab ++ tab ++ tab ++ tab ++ "definition = ?" ++
   nl ++ tab ++ tab ++ tab ++ "WHERE" ++
   nl ++ tab ++ tab ++ tab ++ tab ++ "typeId = ? AND" ++
   nl ++ tab ++ tab ++ tab ++ tab ++ "deletedAt IS NULL" ++
   nl ++ tab ++ tab)%string.

Section RepositoryWrites.

Variable drv : Driver.

(** The error of [result.LastInsertId()]; the identifier itself is the
    field of the result. *)
Variable LastInsertId_error : Result -> option error.

Definition Create (ctx : context) (model : Model) : M (Z * option error) :=
  r <- SQL_ExecContext drv ctx Create_query
         [VStr (GetTypeId model); VStr (GetDefinition model);
          VStr (GetDefinition model)] ;;
  let '(result, err) := r in
  match err with
  | Some _ => ret (0%Z, Wrap err "Unable to create object type")
  | None =>
      let newObjectTypeId := LastInsertId result in
      match LastInsertId_error result with
      | Some e => ret (0%Z, Some e)
      | None => ret (newObjectTypeId, None)
      end
  end.

Definition GetById (ctx : context) (id : Z) : M (row * option error) :=
  r <- SQL_GetContext drv ctx GetById_query [VInt id] ;;
  let '(objectType, err) := r in
  match err with
  | Some e =>
      if is_ErrNoRows e
      then ret (objectType, Some (RecordNotFoundError "ObjectType" (VInt id)))
      else ret (objectType, err)
  | None => ret (objectType, None)
  end.

Definition UpdateByTypeId (ctx : context) (typeId : string) (model : Model)
    : M (option error) :=
  r <- SQL_ExecContext drv ctx UpdateByTypeId_query
         [VStr (GetDefinition model); VStr typeId] ;;
  let '(_, err) := r in
  match err with
  | Some _ => ret (Wrap err ("Error updating object type " ++ typeId)%string)
  | None => ret None
  end.

End RepositoryWrites.

(** ** More units of work and stores *)

(** A unit of work that executes one statement on the context it is given
    and returns the error of that statement. *)
Definition exec_in_tx (drv : Driver) (query : string) (args : list value)
    : context -> M (option error) :=
  fun txCtx =>
    r <- SQL_ExecContext drv txCtx query args ;;
    ret (snd r).

Definition begin_fails : Driver :=
  fixed_driver (Some (DriverError "too many connections")) None None
    (mkResult 0 0, None) ([], None) ([], None).

Definition exec_fails : Driver :=
  fixed_driver None None None
    (mkResult 0 0, Some (DriverError "deadlock")) ([], None) ([], None).

Definition no_rows : Driver :=
  fixed_driver None None None
    (mkResult 0 0, Some ErrNoRows) ([], Some ErrNoRows) ([], Some ErrNoRows).

Definition select_fails : Driver :=
  fixed_driver None None None
    (mkResult 0 0, None) ([], None)
    ([objectType_row 1 "a"], Some (DriverError "connection reset")).

(** The messages an error of the store gathers on its way through a method
    of [SQL]: the method's own, and before it the one of [SqlTx] when the
    context carries a transaction. *)
Definition layer_messages (ctx : context) (message : string) : list string :=
  match tx_of_context ctx with
  | Some _ => [message; "sql error"%string]
  | None => [message]
  end.

(** What a classifying method of [SQL] returns for the error of the store. *)
Definition through_layers (ctx : context) (message : string)
    (err : option error) : option error :=
  match err with
  | None => None
  | Some e =>
      if is_ErrNoRows e then Some e
      else Some (wrapped (layer_messages ctx message) e)
  end.

(** ** Tables the pagination can order *)

Inductive kind : Type := KInt | KStr | KTime.

Definition kind_of (v : value) : option kind :=
  match v with
  | VNull => None
  | VInt _ => Some KInt
  | VStr _ => Some KStr
  | VTime _ => Some KTime
  end.

(** A live row with a string identifier and a sort value of kind [k]. *)
Definition orderable (k : kind) (sortBy : string) (r : row) : Prop :=
  kind_of (column r sortBy) = Some k
  /\ kind_of (column r "typeId") = Some KStr
  /\ column r "deletedAt" = VNull.

(** The comparison [ORDER BY sortBy, typeId] makes between two rows. *)
Definition key_compare (sortBy : string) (r1 r2 : row) : option comparison :=
  match compare_value (column r1 sortBy) (column r2 sortBy) with
  | Some Eq => compare_value (column r1 "typeId") (column r2 "typeId")
  | other => other
  end.

Definition leb_of (o : middleware.SortOrder) (c : comparison) : bool :=
  match c, o with
  | Lt, middleware.SortOrderAsc => true
  | Gt, middleware.SortOrderAsc => false
  | Lt, middleware.SortOrderDesc => false
  | Gt, middleware.SortOrderDesc => true
  | Eq, _ => true
  end.

Definition key_terms (sortBy : string) (o : middleware.SortOrder)
    : list (string * middleware.SortOrder) :=
  [(sortBy, o); ("typeId"%string, o)].

(** Three rows, two of them with the same sort value. *)
Definition tied_rows : list row :=
  [objectType_row 10 "x"; objectType_row 10 "y"; objectType_row 5 "z"].

(** Descending by [createdAt], two rows a page, after the row x. *)
Definition after_x_request : ListParams :=
  mkListParams "" "createdAt" middleware.SortOrderDesc
    "x" (Some (VInt 10)) "" None 2.

(** Ascending by [createdAt], one row a page, before the row d. *)
Definition before_d_request : ListParams :=
  mkListParams "" "createdAt" middleware.SortOrderAsc
    "" None "d" (Some (VInt 3)) 1.

(** ** pkg/authz/role: the role service

    The service's collaborators are declared outside the given sources and
    are parameters here: the role repository and its constructor, the
    object service, the event service, and the conversions of the role
    model.  Each may do anything a Go function may do: run statements
    through the context it is given, fail, panic. *)

Definition ResourceTypeRole : string := "role"%string.

Section RoleService.

Variable drv : Driver.

Variables RoleSpec UpdateRoleSpec Role Name Description : Type.

(** [objecttype.ObjectTypeRole] *)
Variable ObjectTypeRole : string.

(** [NewRepository(svc.Env().DB())]: the error, nil when the repository
    whose methods follow was built. *)
Variable NewRepository : M (option error).
Variable repo_GetByRoleId : context -> string -> M (Role * option error).
Variable repo_List : context -> ListParams -> M (list Role * option error).
Variable repo_UpdateByRoleId : context -> string -> Role -> M (option error).
Variable repo_DeleteByRoleId : context -> string -> M (option error).

Variable objectSvc_DeleteByObjectTypeAndId :
  context -> string -> string -> M (option error).

Variable eventSvc_TrackResourceUpdated :
  context -> string -> string -> option RoleSpec -> M unit.
Variable eventSvc_TrackResourceDeleted :
  context -> string -> string -> option RoleSpec -> M unit.

Variable ToRoleSpec : Role -> RoleSpec.
Variable GetRoleId : Role -> string.
Variable SetName : Role -> Name -> Role.
Variable SetDescription : Role -> Description -> Role.
Variable UpdateRoleSpec_Name : UpdateRoleSpec -> Name.
Variable UpdateRoleSpec_Description : UpdateRoleSpec -> Description.

Definition RoleService_GetByRoleId (ctx : context) (roleId : string)
    : M (option RoleSpec * option error) :=
  err <- NewRepository ;;
  match err with
  | Some _ => ret (None, err)
  | None =>
      r <- repo_GetByRoleId ctx roleId ;;
      let '(role, err) := r in
      match err with
      | Some _ => ret (None, err)
      | None => ret (Some (ToRoleSpec role), None)
      end
  end.

Definition RoleService_List (ctx : context) (listParams : ListParams)
    : M (list RoleSpec * option error) :=
  let roleSpecs : list RoleSpec := [] in
  err <- NewRepository ;;
  match err with
  | Some _ => ret (roleSpecs, err)
  | None =>
      r <- repo_List ctx listParams ;;
      let '(roles, err) := r in
      match err with
      | Some _ => ret (roleSpecs, None)
      | None => ret (roleSpecs ++ map ToRoleSpec roles, None)
      end
  end.

Definition RoleService_UpdateByRoleId (ctx : context) (roleId : string)
    (roleSpec : UpdateRoleSpec) : M (option RoleSpec * option error) :=
  err <- NewRepository ;;
  match err with
  | Some _ => ret (None, err)
  | None =>
      r <- repo_GetByRoleId ctx roleId ;;
      let '(currentRole, err) := r in
      match err with
      | Some _ => ret (None, err)
      | None =>
          let currentRole := SetName currentRole (UpdateRoleSpec_Name roleSpec) in
          let currentRole :=
            SetDescription currentRole (UpdateRoleSpec_Description roleSpec) in
          err <- repo_UpdateByRoleId ctx roleId currentRole ;;
          match err with
          | Some _ => ret (None, err)
          | None =>
              r <- repo_GetByRoleId ctx roleId ;;
              let '(updatedRole, err) := r in
              match err with
              | Some _ => ret (None, err)
              | None =>
                  let updatedRoleSpec := ToRoleSpec updatedRole in
                  eventSvc_TrackResourceUpdated ctx ResourceTypeRole
                    (GetRoleId updatedRole) (Some updatedRoleSpec) ;;;
                  ret (Some updatedRoleSpec, None)
              end
          end
      end
  end.

(** The unit of work of [DeleteByRoleId]. *)
Definition RoleService_DeleteByRoleId_work (roleId : string)
    : context -> M (option error) :=
  fun txCtx =>
    err <- NewRepository ;;
    match err with
    | Some _ => ret err
    | None =>
        err <- repo_DeleteByRoleId txCtx roleId ;;
        match err with
        | Some _ => ret err
        | None =>
            err <- objectSvc_DeleteByObjectTypeAndId txCtx ObjectTypeRole roleId ;;
            match err with
            | Some _ => ret err
            | None =>
                eventSvc_TrackResourceDeleted txCtx ResourceTypeRole roleId None ;;;
                ret None
            end
        end
    end.

Definition RoleService_DeleteByRoleId (ctx : context) (roleId : string)
    : M (option error) :=
  err <- WithinTransaction drv ctx (RoleService_DeleteByRoleId_work roleId) ;;
  ret err.

End RoleService.

(** Collaborators of the role service over a store [drv]: roles are their
    identifiers, the role repository and the event service each run one
    statement on the context they are given, and the object service
    answers with a fixed error. *)
Definition stub_repo_DeleteByRoleId (drv : Driver)
    : context -> string -> M (option error) :=
  fun ctx roleId =>
    r <- SQL_ExecContext drv ctx "UPDATE role SET deletedAt = ? WHERE roleId = ?"
           [VTime 0; VStr roleId] ;;
    ret (snd r).

Definition stub_objectSvc_Delete (failure : option error)
    : context -> string -> string -> M (option error) :=
  fun _ _ _ => ret failure.

Definition stub_Track (drv : Driver)
    : context -> string -> string -> option string -> M unit :=
  fun ctx resourceType resourceId _ =>
    SQL_ExecContext drv ctx
      "INSERT INTO event (type, resourceType, resourceId) VALUES (?, ?, ?)"
      [VStr "deleted"; VStr resourceType; VStr resourceId] ;;;
    ret tt.

Definition stub_repo_List (answer : list string * option error)
    : context -> ListParams -> M (list string * option error) :=
  fun _ _ => ret answer.

(** ** Nullable strings and their JSON form (pkg/database/sql.go) *)

(** [type NullString struct { sql.NullString }] *)
Record NullString : Type := mkNullString {
  String_ : string;
  Valid : bool
}.

(** [StringToNullString]; a [*string] is an [option string]. *)
Definition StringToNullString (str : option string) : NullString :=
  match str with
  | None => mkNullString ""%string false
  | Some s => mkNullString s true
  end.

Section NullStringJSON.

(** [json.Marshal] of a string, and [json.Unmarshal] into a [*string]
    that starts nil: the pointer it leaves and its error. *)
Variable json_Marshal : string -> string * option error.
Variable json_Unmarshal : string -> option string * option error.

Definition NullString_MarshalJSON (s : NullString) : string * option error :=
  if Valid s then json_Marshal (String_ s)
  else ("null"%string, None).

(** The receiver is a pointer: the result is the struct it points to
    afterwards, and the error. *)
Definition NullString_UnmarshalJSON (s : NullString) (data : string)
    : NullString * option error :=
  match json_Unmarshal data with
  | (_, Some err) => (s, Some err)
  | (Some str, None) => (mkNullString str true, None)
  | (None, None) => (mkNullString (String_ s) false, None)
  end.

End NullStringJSON.

(** A JSON coder for the strings that need no escape. *)
Definition quote : string := String "034"%char ""%string.

Definition plain_Marshal (s : string) : string * option error :=
  ((quote ++ s ++ quote)%string, None).

Definition plain_Unmarshal (data : string) : option string * option error :=
  if (data =? "null")%string then (None, None)
  else
    match data with
    | String "034"%char rest =>
        (Some (substring 0 (String.length rest - 1) rest), None)
    | _ => (None, Some (DriverError "invalid character"))
    end.

(** ** The statement interceptor (server/pkg/database/sql.go) *)

(** What the interceptor writes for a slow statement. *)
Record SlowQuery : Type := mkSlowQuery {
  slow_query : string;
  slow_args : string;
  slow_err : option error;
  slow_duration : Z
}.

(** [time.Duration.Milliseconds]: a duration is a count of nanoseconds, and
    the division of integers truncates toward zero. *)
Definition Milliseconds (duration : Z) : Z := Z.quot duration 1000000.

Section Interceptor.

(** [driver.Rows] and [driver.Result] *)
Variables Rows ExecResult : Type.

(** [strings.Join(strings.Fields(query), " ")] and [fmt.Sprintf("%v", args)] *)
Variable normalize : string -> string.
Variable show_args : list value -> string.

(** [conn] is the wrapped statement: its answer, its error, and the
    nanoseconds between [time.Now()] before the call and [time.Since]
    after it.  The warnings logged so far are passed along. *)
Definition StmtQueryContext (ctx : context)
    (conn : context -> list value -> Rows * option error * Z)
    (query : string) (args : list value) (warnings : list SlowQuery)
    : (context * Rows * option error) * list SlowQuery :=
  let '(rows, err, duration) := conn ctx args in
  if (50 <? Milliseconds duration)%Z
  then ((ctx, rows, err),
        warnings ++ [mkSlowQuery (normalize query) (show_args args) err duration])
  else ((ctx, rows, err), warnings).

Definition StmtExecContext (ctx : context)
    (conn : context -> list value -> ExecResult * option error * Z)
    (query : string) (args : list value) (warnings : list SlowQuery)
    : (ExecResult * option error) * list SlowQuery :=
  let '(result, err, duration) := conn ctx args in
  if (50 <? Milliseconds duration)%Z
  then ((result, err),
        warnings ++ [mkSlowQuery (normalize query) (show_args args) err duration])
  else ((result, err), warnings).

End Interceptor.

(** * Properties *)

(** ** Logs *)

Lemma begins_app (w1 w2 : World) : begins (w1 ++ w2) = begins w1 + begins w2.
Proof. unfold begins. now rewrite filter_app, length_app. Qed.

Lemma commits_app (w1 w2 : World) : commits (w1 ++ w2) = commits w1 + commits w2.
Proof. unfold commits. now rewrite filter_app, length_app. Qed.

Lemma rollbacks_app (w1 w2 : World) :
  rollbacks (w1 ++ w2) = rollbacks w1 + rollbacks w2.
Proof. unfold rollbacks. now rewrite filter_app, length_app. Qed.

Lemma failure_log_quiet (msg : string) (res : option error) :
  begins (failure_log msg res) = 0
  /\ commits (failure_log msg res) = 0
  /\ rollbacks (failure_log msg res) = 0.
Proof. destruct res; repeat split; reflexivity. Qed.

Lemma rollback_events_counts (drv : Driver) (tx : nat) (w : World) :
  begins (rollback_events drv tx w) = 0
  /\ commits (rollback_events drv tx w) = 0
  /\ rollbacks (rollback_events drv tx w) = 1.
Proof.
  unfold rollback_events.
  destruct (drv_Rollback drv tx w); repeat split; reflexivity.
Qed.

Lemma commit_events_counts (drv : Driver) (tx : nat) (w : World) :
  begins (commit_events drv tx w) = 0
  /\ commits (commit_events drv tx w) = 1
  /\ rollbacks (commit_events drv tx w) = 0.
Proof.
  unfold commit_events.
  destruct (drv_Commit drv tx w); repeat split; reflexivity.
Qed.

Lemma child_context_has_tx (ctx : context) (w : World) :
  tx_of_context (child_context ctx w) = Some (mkSqlTx (begins w)).
Proof. reflexivity. Qed.

(** ** The transaction scope manager *)

Section TransactionScope.

Variable drv : Driver.

(** With a transaction in the context the unit of work is all that runs. *)
Lemma WithinTransaction_reuse (ctx : context) (tx : SqlTx)
    (txFunc : context -> M (option error)) (w : World) :
  tx_of_context ctx = Some tx ->
  WithinTransaction drv ctx txFunc w = txFunc ctx w.
Proof.
  intros Htx. unfold WithinTransaction. rewrite Htx.
  unfold bind, ret. destruct (txFunc ctx w) as [[err | p] w1]; reflexivity.
Qed.

Lemma WithinTransaction_begin_fails (ctx : context)
    (txFunc : context -> M (option error)) (w : World) (e : error) :
  tx_of_context ctx = None ->
  drv_Beginx drv w = Some e ->
  WithinTransaction drv ctx txFunc w =
    (Normal (Some (withStack (withMessage e "Error beginning sql transaction"))),
     w ++ [EvBeginx (Some e)]).
Proof.
  intros Htx Hb. unfold WithinTransaction. rewrite Htx.
  unfold bind, Beginx. rewrite Hb. reflexivity.
Qed.

Lemma WithinTransaction_outermost (ctx : context)
    (txFunc : context -> M (option error)) (w : World) :
  tx_of_context ctx = None ->
  drv_Beginx drv w = None ->
  WithinTransaction drv ctx txFunc w =
    with_defer (deferred drv (begins w)) None
      (txFunc (child_context ctx w)) (w ++ [EvBeginx None]).
Proof.
  intros Htx Hb. unfold WithinTransaction. rewrite Htx.
  unfold bind, Beginx. rewrite Hb. reflexivity.
Qed.

Lemma deferred_after_error (tx : nat) (e : error) (w : World) :
  deferred drv tx None (Some e) w =
    (Normal (drv_Rollback drv tx w), w ++ rollback_events drv tx w).
Proof.
  unfold deferred, rollback_events, bind, tx_Rollback, call, log_if_err, log_Err, ret.
  destruct (drv_Rollback drv tx w); cbn; rewrite <- ?app_assoc; reflexivity.
Qed.

Lemma deferred_after_nil (tx : nat) (w : World) :
  deferred drv tx None None w =
    (Normal (drv_Commit drv tx w), w ++ commit_events drv tx w).
Proof.
  unfold deferred, commit_events, bind, tx_Commit, call, log_if_err, log_Err, ret.
  destruct (drv_Commit drv tx w); cbn; rewrite <- ?app_assoc; reflexivity.
Qed.

Lemma deferred_after_panic (tx : nat) (p : panic_value) (err : option error)
    (w : World) :
  deferred drv tx (Some p) err w = (Panicking p, w ++ rollback_events drv tx w).
Proof.
  unfold deferred, rollback_events, bind, tx_Rollback, call, log_if_err, log_Err,
    ret, panic.
  destruct (drv_Rollback drv tx w); cbn; rewrite <- ?app_assoc; reflexivity.
Qed.

(** The three ways an outermost call ends. *)
Lemma WithinTransaction_commits (ctx : context)
    (txFunc : context -> M (option error)) (w w1 : World) :
  tx_of_context ctx = None ->
  drv_Beginx drv w = None ->
  txFunc (child_context ctx w) (w ++ [EvBeginx None]) = (Normal None, w1) ->
  WithinTransaction drv ctx txFunc w =
    (Normal None, w1 ++ commit_events drv (begins w) w1).
Proof.
  intros Htx Hb Hrun. rewrite WithinTransaction_outermost by assumption.
  unfold with_defer. rewrite Hrun, deferred_after_nil. reflexivity.
Qed.

Lemma WithinTransaction_rolls_back (ctx : context)
    (txFunc : context -> M (option error)) (w w1 : World) (e : error) :
  tx_of_context ctx = None ->
  drv_Beginx drv w = None ->
  txFunc (child_context ctx w) (w ++ [EvBeginx None]) = (Normal (Some e), w1) ->
  WithinTransaction drv ctx txFunc w =
    (Normal (Some e), w1 ++ rollback_events drv (begins w) w1).
Proof.
  intros Htx Hb Hrun. rewrite WithinTransaction_outermost by assumption.
  unfold with_defer. rewrite Hrun, deferred_after_error. reflexivity.
Qed.

Lemma WithinTransaction_panics (ctx : context)
    (txFunc : context -> M (option error)) (w w1 : World) (p : panic_value) :
  tx_of_context ctx = None ->
  drv_Beginx drv w = None ->
  p <> PanicNil ->
  txFunc (child_context ctx w) (w ++ [EvBeginx None]) = (Panicking p, w1) ->
  WithinTransaction drv ctx txFunc w =
    (Panicking p, w1 ++ rollback_events drv (begins w) w1).
Proof.
  intros Htx Hb Hp Hrun. rewrite WithinTransaction_outermost by assumption.
  unfold with_defer. rewrite Hrun.
  destruct p; [contradiction | |]; cbn [recover_of];
    rewrite deferred_after_panic; reflexivity.
Qed.

(** A panic whose value is nil is not seen by the closure: it takes the
    branch of the unit of work that returned nil. *)
Lemma WithinTransaction_nil_panic (ctx : context)
    (txFunc : context -> M (option error)) (w w1 : World) :
  tx_of_context ctx = None ->
  drv_Beginx drv w = None ->
  txFunc (child_context ctx w) (w ++ [EvBeginx None]) = (Panicking PanicNil, w1) ->
  WithinTransaction drv ctx txFunc w =
    (Normal None, w1 ++ commit_events drv (begins w) w1).
Proof.
  intros Htx Hb Hrun. rewrite WithinTransaction_outermost by assumption.
  unfold with_defer. rewrite Hrun. cbn [recover_of].
  rewrite deferred_after_nil. reflexivity.
Qed.

End TransactionScope.

(** C1.  A unit of work that returns nil makes the outermost call attempt
    the commit, but a failing commit is not what the call returns: with a
    store whose commit fails, [WithinTransaction] begins, lets the unit of
    work return nil, attempts the commit, logs its failure and returns nil. *)
Theorem C1_commit_failure_is_logged_not_returned :
  WithinTransaction commit_fails Background work_ok [] =
    (Normal None,
     [EvBeginx None;
      EvCommit 0 (Some (DriverError "connection lost"));
      EvLog "error committing sql transaction" (DriverError "connection lost")]).
Proof. reflexivity. Qed.

Lemma nested_quiet (drv : Driver) (work : context -> M (option error)) (n : nat) :
  tx_quiet work -> tx_quiet (nested drv n work).
Proof.
  intros Hq. induction n as [| k IH]; [exact Hq |].
  intros ctx w Htx. cbn [nested].
  destruct (tx_of_context ctx) as [tx |] eqn:E; [| contradiction].
  rewrite (WithinTransaction_reuse drv ctx tx) by exact E.
  apply IH. rewrite E. discriminate.
Qed.

(** C2.  Whatever the depth of [WithinTransaction] calls that pass one
    context chain on, the outermost call makes exactly one physical begin
    and exactly one physical commit or rollback; a call whose context
    already carries a transaction is the unit of work run on that context:
    same result, same log, no commit and no rollback of its own. *)
Theorem C2_one_begin_one_end (drv : Driver) (ctx : context)
    (work : context -> M (option error)) (n : nat) (w : World) :
  tx_of_context ctx = None ->
  drv_Beginx drv w = None ->
  tx_quiet work ->
  (begins (snd (WithinTransaction drv ctx (nested drv n work) w)) = S (begins w)
   /\ commits (snd (WithinTransaction drv ctx (nested drv n work) w))
      + rollbacks (snd (WithinTransaction drv ctx (nested drv n work) w))
      = S (commits w + rollbacks w))
  /\ (forall ctx' tx txFunc w0,
        tx_of_context ctx' = Some tx ->
        WithinTransaction drv ctx' txFunc w0 = txFunc ctx' w0).
Proof.
  intros Htx Hb Hq. split.
  - pose proof (nested_quiet drv work n Hq (child_context ctx w)
                  (w ++ [EvBeginx None])) as Hin.
    rewrite child_context_has_tx in Hin.
    destruct Hin as (Hbeg & Hcom & Hrol); [discriminate |].
    rewrite begins_app in Hbeg. rewrite commits_app in Hcom.
    rewrite rollbacks_app in Hrol. cbn in Hbeg, Hcom, Hrol.
    destruct (nested drv n work (child_context ctx w) (w ++ [EvBeginx None]))
      as [[[e |] | p] w1] eqn:Hrun; cbn [snd] in Hbeg, Hcom, Hrol.
    + rewrite (WithinTransaction_rolls_back drv ctx _ w w1 e Htx Hb Hrun).
      cbn [snd]. rewrite begins_app, commits_app, rollbacks_app.
      destruct (rollback_events_counts drv (begins w) w1) as (-> & -> & ->). lia.
    + rewrite (WithinTransaction_commits drv ctx _ w w1 Htx Hb Hrun).
      cbn [snd]. rewrite begins_app, commits_app, rollbacks_app.
      destruct (commit_events_counts drv (begins w) w1) as (-> & -> & ->). lia.
    + destruct p as [| v | e].
      * rewrite (WithinTransaction_nil_panic drv ctx _ w w1 Htx Hb Hrun).
        cbn [snd]. rewrite begins_app, commits_app, rollbacks_app.
        destruct (commit_events_counts drv (begins w) w1) as (-> & -> & ->). lia.
      * rewrite (WithinTransaction_panics drv ctx _ w w1 (PanicValue v) Htx Hb
                   ltac:(discriminate) Hrun).
        cbn [snd]. rewrite begins_app, commits_app, rollbacks_app.
        destruct (rollback_events_counts drv (begins w) w1) as (-> & -> & ->). lia.
      * rewrite (WithinTransaction_panics drv ctx _ w w1 (PanicError e) Htx Hb
                   ltac:(discriminate) Hrun).
        cbn [snd]. rewrite begins_app, commits_app, rollbacks_app.
        destruct (rollback_events_counts drv (begins w) w1) as (-> & -> & ->). lia.
  - intros ctx' tx txFunc w0 H. exact (WithinTransaction_reuse drv ctx' tx txFunc w0 H).
Qed.

Lemma work_delete_quiet (drv : Driver) : tx_quiet (work_delete drv).
Proof.
  intros ctx w _.
  unfold work_delete, DeleteByTypeId, SQL_ExecContext, getQueryableFromContext,
    queryable_ExecContext, SqlTx_ExecContext, time_Now.
  generalize DeleteByTypeId_query as text. intros text.
  destruct (tx_of_context ctx) as [[tx] |]; unfold bind, call, ret; cbn;
    match goal with
    | |- context [drv_Exec ?d ?h ?q ?a ?w0] =>
        destruct (drv_Exec d h q a w0) as [? [[] |]]
    end; cbn -[begins commits rollbacks];
    rewrite begins_app, commits_app, rollbacks_app; cbn;
    repeat split; lia.
Qed.

Lemma C2_one_begin_one_end_witness :
  begins (snd (WithinTransaction healthy_driver Background
                 (nested healthy_driver 3 (work_delete healthy_driver)) [])) = 1
  /\ commits (snd (WithinTransaction healthy_driver Background
                     (nested healthy_driver 3 (work_delete healthy_driver)) []))
     + rollbacks (snd (WithinTransaction healthy_driver Background
                         (nested healthy_driver 3 (work_delete healthy_driver)) [])) = 1.
Proof.
  apply (C2_one_begin_one_end healthy_driver Background
           (work_delete healthy_driver) 3 []);
    [reflexivity | reflexivity | exact (work_delete_quiet healthy_driver)].
Defined.

(** C7.  When the unit of work of an outermost call returns a non-nil
    error, [WithinTransaction] returns that very error, whatever the
    rollback answers; the rollback is attempted once, and when it fails the
    failure goes to the log and nowhere else. *)
Theorem C7_error_returned_unchanged (drv : Driver) (ctx : context)
    (txFunc : context -> M (option error)) (w w1 : World) (e : error) :
  tx_of_context ctx = None ->
  drv_Beginx drv w = None ->
  txFunc (child_context ctx w) (w ++ [EvBeginx None]) = (Normal (Some e), w1) ->
  WithinTransaction drv ctx txFunc w =
    (Normal (Some e), w1 ++ rollback_events drv (begins w) w1)
  /\ (forall failure,
        drv_Rollback drv (begins w) w1 = Some failure ->
        WithinTransaction drv ctx txFunc w =
          (Normal (Some e),
           w1 ++ [EvRollback (begins w) (Some failure);
                  EvLog "error rolling back sql transaction" failure])).
Proof.
  intros Htx Hb Hrun.
  pose proof (WithinTransaction_rolls_back drv ctx txFunc w w1 e Htx Hb Hrun) as H.
  split; [exact H |].
  intros failure Hf. rewrite H. unfold rollback_events. rewrite Hf. reflexivity.
Qed.

Lemma C7_error_returned_unchanged_witness :
  WithinTransaction rollback_fails Background work_fails [] =
    (Normal (Some (DriverError "duplicate entry")),
     [EvBeginx None;
      EvRollback 0 (Some (DriverError "connection lost"));
      EvLog "error rolling back sql transaction" (DriverError "connection lost")]).
Proof.
  exact (proj1 (C7_error_returned_unchanged rollback_fails Background work_fails
                  [] [EvBeginx None] (DriverError "duplicate entry")
                  eq_refl eq_refl eq_refl)).
Defined.




(** ** Error classification of the capability operations *)

Lemma Cause_wrapped (messages : list string) (e : error) :
  Cause (wrapped messages e) = Cause e.
Proof. induction messages as [| m rest IH]; [reflexivity | exact IH]. Qed.

Lemma classified_sentinel (returned : option error) :
  classified (Some ErrNoRows) returned <-> returned = Some ErrNoRows.
Proof. reflexivity. Qed.

Ltac run_operation :=
  unfold bind, call, ret; cbn;
  repeat match goal with
         | |- context [drv_Exec ?d ?h ?q ?a ?w] =>
             destruct (drv_Exec d h q a w) as [? [[] |]]
         | |- context [drv_NamedExec ?d ?h ?q ?a ?w] =>
             destruct (drv_NamedExec d h q a w) as [? [[] |]]
         | |- context [drv_Get ?d ?h ?q ?a ?w] =>
             destruct (drv_Get d h q a w) as [? [[] |]]
         | |- context [drv_Query ?d ?h ?q ?a ?w] =>
             destruct (drv_Query d h q a w) as [? [[] |]]
         | |- context [drv_Select ?d ?h ?q ?a ?w] =>
             destruct (drv_Select d h q a w) as [? [[] |]]
         end;
  cbn; do 2 eexists; (split; [reflexivity |]); cbn;
  try reflexivity;
  match goal with
  | |- exists m rest, Some (withStack (withMessage (withStack (withMessage _ ?m2)) ?m1)) = _ /\ _ =>
      exists m1, [m2]; repeat split
  | |- exists m rest, Some (withStack (withMessage _ ?m1)) = _ /\ _ =>
      exists m1, []; repeat split
  end.

Section Classification.

Variable drv : Driver.

Lemma SqlTx_ExecContext_classified q ctx query args w :
  passes_through (SqlTx_ExecContext drv q ctx query args w)
    (drv_Exec drv (OnTx (Tx q)) (Rebind drv query) args w).
Proof. unfold passes_through, SqlTx_ExecContext. run_operation. Qed.

Lemma SqlTx_GetContext_classified q ctx query args w :
  passes_through (SqlTx_GetContext drv q ctx query args w)
    (drv_Get drv (OnTx (Tx q)) (Rebind drv query) args w).
Proof. unfold passes_through, SqlTx_GetContext. run_operation. Qed.

Lemma SqlTx_NamedExecContext_classified q ctx query arg w :
  passes_through (SqlTx_NamedExecContext drv q ctx query arg w)
    (drv_NamedExec drv (OnTx (Tx q)) (Rebind drv query) arg w).
Proof. unfold passes_through, SqlTx_NamedExecContext. run_operation. Qed.

Lemma SqlTx_QueryContext_classified q ctx query args w :
  passes_through (SqlTx_QueryContext drv q ctx query args w)
    (drv_Query drv (OnTx (Tx q)) (Rebind drv query) args w).
Proof. unfold passes_through, SqlTx_QueryContext. run_operation. Qed.

Lemma SqlTx_SelectContext_classified q ctx query args w :
  passes_through (SqlTx_SelectContext drv q ctx query args w)
    (drv_Select drv (OnTx (Tx q)) (Rebind drv query) args w).
Proof. unfold passes_through, SqlTx_SelectContext. run_operation. Qed.

Ltac on_either_handle :=
  unfold passes_through, handle_of, sent_query, getQueryableFromContext,
    queryable_ExecContext, queryable_GetContext, queryable_NamedExecContext,
    queryable_QueryContext, queryable_SelectContext,
    SqlTx_ExecContext, SqlTx_GetContext, SqlTx_NamedExecContext,
    SqlTx_QueryContext, SqlTx_SelectContext;
  match goal with
  | |- context [tx_of_context ?c] => destruct (tx_of_context c) as [[tx] |]
  end; run_operation.

Lemma SQL_ExecContext_classified ctx query args w :
  passes_through (SQL_ExecContext drv ctx query args w)
    (drv_Exec drv (handle_of ctx) (sent_query drv ctx query) args w).
Proof. unfold SQL_ExecContext. on_either_handle. Qed.

Lemma SQL_GetContext_classified ctx query args w :
  passes_through (SQL_GetContext drv ctx query args w)
    (drv_Get drv (handle_of ctx) (sent_query drv ctx query) args w).
Proof. unfold SQL_GetContext. on_either_handle. Qed.

Lemma SQL_NamedExecContext_classified ctx query arg w :
  passes_through (SQL_NamedExecContext drv ctx query arg w)
    (drv_NamedExec drv (handle_of ctx) (sent_query drv ctx query) arg w).
Proof. unfold SQL_NamedExecContext. on_either_handle. Qed.

Lemma SQL_QueryContext_classified ctx query args w :
  passes_through (SQL_QueryContext drv ctx query args w)
    (drv_Query drv (handle_of ctx) (sent_query drv ctx query) args w).
Proof. unfold SQL_QueryContext. on_either_handle. Qed.

Lemma SQL_SelectContext_classified ctx query args w :
  passes_through (SQL_SelectContext drv ctx query args w)
    (drv_Select drv (handle_of ctx) (sent_query drv ctx query) args w).
Proof. unfold SQL_SelectContext. on_either_handle. Qed.

End Classification.

(** C8.  Every capability operation that classifies errors (exec, get,
    named-exec, query, select), on the transaction handle and on the
    connection handle with or without a transaction in the context,
    returns the no-rows sentinel itself when the store answered with the
    sentinel, and returns any other error of the store under one message
    per layer passed, not equal to the sentinel and with the cause of the
    store's error as its cause. *)
Theorem C8_sentinel_kept_others_wrapped (drv : Driver) (q : SqlTx)
    (ctx : context) (query : string) (args : list value) (arg : row) (w : World) :
  (passes_through (SqlTx_ExecContext drv q ctx query args w)
     (drv_Exec drv (OnTx (Tx q)) (Rebind drv query) args w)
   /\ passes_through (SqlTx_GetContext drv q ctx query args w)
        (drv_Get drv (OnTx (Tx q)) (Rebind drv query) args w)
   /\ passes_through (SqlTx_NamedExecContext drv q ctx query arg w)
        (drv_NamedExec drv (OnTx (Tx q)) (Rebind drv query) arg w)
   /\ passes_through (SqlTx_QueryContext drv q ctx query args w)
        (drv_Query drv (OnTx (Tx q)) (Rebind drv query) args w)
   /\ passes_through (SqlTx_SelectContext drv q ctx query args w)
        (drv_Select drv (OnTx (Tx q)) (Rebind drv query) args w))
  /\ (passes_through (SQL_ExecContext drv ctx query args w)
        (drv_Exec drv (handle_of ctx) (sent_query drv ctx query) args w)
      /\ passes_through (SQL_GetContext drv ctx query args w)
           (drv_Get drv (handle_of ctx) (sent_query drv ctx query) args w)
      /\ passes_through (SQL_NamedExecContext drv ctx query arg w)
           (drv_NamedExec drv (handle_of ctx) (sent_query drv ctx query) arg w)
      /\ passes_through (SQL_QueryContext drv ctx query args w)
           (drv_Query drv (handle_of ctx) (sent_query drv ctx query) args w)
      /\ passes_through (SQL_SelectContext drv ctx query args w)
           (drv_Select drv (handle_of ctx) (sent_query drv ctx query) args w)).
Proof.
  repeat split.
  - apply SqlTx_ExecContext_classified.
  - apply SqlTx_GetContext_classified.
  - apply SqlTx_NamedExecContext_classified.
  - apply SqlTx_QueryContext_classified.
  - apply SqlTx_SelectContext_classified.
  - apply SQL_ExecContext_classified.
  - apply SQL_GetContext_classified.
  - apply SQL_NamedExecContext_classified.
  - apply SQL_QueryContext_classified.
  - apply SQL_SelectContext_classified.
Qed.

(** The sentinel is still what a repository sees: [GetByTypeId] turns the
    store's no-rows answer into the typed not-found result, inside and
    outside a transaction. *)
Lemma GetByTypeId_not_found (drv : Driver) (ctx : context) (typeId : string)
    (w : World) (dest : row) :
  drv_Get drv (handle_of ctx) (sent_query drv ctx GetByTypeId_query)
    [VStr typeId] w = (dest, Some ErrNoRows) ->
  fst (GetByTypeId drv ctx typeId w)
  = Normal (dest, Some (RecordNotFoundError "ObjectType" (VStr typeId))).
Proof.
  unfold GetByTypeId, SQL_GetContext, handle_of, sent_query,
    getQueryableFromContext, queryable_GetContext, SqlTx_GetContext.
  generalize GetByTypeId_query as text. intros text.
  destruct (tx_of_context ctx) as [[tx] |]; unfold bind, call, ret; cbn;
    intros ->; reflexivity.
Qed.

(** ** Soft delete *)

(** C10.  When the store's exec answers with a nil error, whatever the
    result it reports (zero rows affected included), [DeleteByTypeId]
    returns nil: deleting an object type that does not exist is a success
    and no not-found result. *)
Theorem C10_delete_without_rows_is_success (drv : Driver) (ctx : context)
    (typeId : string) (w : World) (result : Result) :
  drv_Exec drv (handle_of ctx) (sent_query drv ctx DeleteByTypeId_query)
    [VTime (drv_Now drv w); VStr typeId] w = (result, None) ->
  fst (DeleteByTypeId drv ctx typeId w) = Normal None.
Proof.
  unfold DeleteByTypeId, SQL_ExecContext, handle_of, sent_query,
    getQueryableFromContext, queryable_ExecContext, SqlTx_ExecContext, time_Now.
  generalize DeleteByTypeId_query as text. intros text.
  destruct (tx_of_context ctx) as [[tx] |]; unfold bind, call, ret; cbn;
    intros ->; reflexivity.
Qed.

Lemma C10_delete_without_rows_is_success_witness :
  RowsAffected (mkResult 0 0) = 0%Z
  /\ fst (DeleteByTypeId healthy_driver Background "missing" []) = Normal None.
Proof.
  split; [reflexivity |].
  apply (C10_delete_without_rows_is_success healthy_driver Background "missing"
           [] (mkResult 0 0)).
  reflexivity.
Defined.

(** The not-found result of [DeleteByTypeId] needs the sentinel from exec. *)
Lemma DeleteByTypeId_not_found_needs_sentinel (drv : Driver) (ctx : context)
    (typeId : string) (w : World) (typ : string) (key : value) :
  fst (DeleteByTypeId drv ctx typeId w) = Normal (Some (RecordNotFoundError typ key)) ->
  snd (drv_Exec drv (handle_of ctx) (sent_query drv ctx DeleteByTypeId_query)
         [VTime (drv_Now drv w); VStr typeId] w) = Some ErrNoRows.
Proof.
  unfold DeleteByTypeId, SQL_ExecContext, handle_of, sent_query,
    getQueryableFromContext, queryable_ExecContext, SqlTx_ExecContext, time_Now.
  generalize DeleteByTypeId_query as text. intros text.
  destruct (tx_of_context ctx) as [[tx] |]; unfold bind, call, ret; cbn;
    match goal with
    | |- context [drv_Exec ?d ?h ?q ?a ?w0] =>
        destruct (drv_Exec d h q a w0) as [? [[] |]]
    end; cbn; intros H; try reflexivity; discriminate H.
Qed.

(** ** The pagination query *)

Lemma append_assoc (a b c : string) : ((a ++ b) ++ c = a ++ (b ++ c))%string.
Proof. induction a as [| ch a IH]; cbn; [reflexivity | now rewrite IH]. Qed.

Lemma append_empty (a : string) : (a ++ "" = a)%string.
Proof. induction a as [| ch a IH]; cbn; [reflexivity | now rewrite IH]. Qed.

(** The tree [List_stmt] prints as the text [List] builds. *)
Lemma List_stmt_render (listParams : ListParams) :
  render_stmt (List_stmt listParams) = fst (List_build listParams).
Proof.
  destruct listParams as [query sortBy order afterId afterValue beforeId beforeValue limit].
  unfold render_stmt, List_stmt, List_build, List_order, List_before, List_after,
    List_search, search_conjuncts, cursor_conjuncts, order_terms, keyset_expr.
  generalize List_base_query as base. intros base. cbn.
  destruct (query =? "")%string, (afterId =? "")%string, afterValue, order,
    (beforeId =? "")%string, beforeValue, (sortBy =? "objectType")%string;
    repeat (cbn; rewrite ?append_assoc, ?append_empty); reflexivity.
Qed.

Lemma List_build_args (listParams : ListParams) :
  snd (List_build listParams)
  = search_args listParams ++ after_args listParams ++ before_args listParams
      ++ [VInt (Limit listParams)].
Proof.
  destruct listParams as [query sortBy order afterId afterValue beforeId beforeValue limit].
  unfold List_build, List_order, List_before, List_after, List_search,
    search_args, after_args, before_args.
  generalize List_base_query as base. intros base. cbn.
  destruct (query =? "")%string, (afterId =? "")%string, afterValue, order,
    (beforeId =? "")%string, beforeValue, (sortBy =? "objectType")%string;
    reflexivity.
Qed.






(** The keyset condition [List] writes has the meaning of the rule. *)
Lemma keyset_expr_meaning (sortBy : string) (op : cmpop) (r : row)
    (v : value) (cursorId : string) (rest : list value) :
  eval (keyset_expr sortBy op) r ([v; VStr cursorId; v] ++ rest)
  = (keyset_rule op (column r sortBy) v (column r "typeId") (VStr cursorId), rest).
Proof.
  cbn. unfold keyset_rule. f_equal. f_equal. apply andb_comm.
Qed.

(** On rows whose sort values compare, the rule selects exactly the rows
    that [ORDER BY sortBy, typeId] places strictly after the cursor row. *)
Lemma forward_cursor_selects_rows_after (o : middleware.SortOrder)
    (sortBy : string) (r cursor : row) :
  compare_value (column r sortBy) (column cursor sortBy) <> None ->
  keyset_rule (after_op o) (column r sortBy) (column cursor sortBy)
    (column r "typeId") (column cursor "typeId")
  = negb (row_leb [(sortBy, o); ("typeId"%string, o)] r cursor).
Proof.
  intros Hcmp. unfold keyset_rule, holds, row_leb.
  destruct (compare_value (column r sortBy) (column cursor sortBy)) as [[] |];
    [| | | contradiction];
    destruct (compare_value (column r "typeId") (column cursor "typeId")) as [[] |];
    destruct o; reflexivity.
Qed.

(** C6.  With [AfterId] set, the forward-cursor block of [List] appends to
    the statement, when [AfterValue] is present, the condition
    [(sortBy op ? OR (typeId op ? AND sortBy = ?))] with the replacements
    [AfterValue, AfterId, AfterValue], which holds of a row exactly when
    [sortValue op AfterValue], or [sortValue = AfterValue] and
    [typeId op AfterId]; when [AfterValue] is absent it appends
    [typeId op ?] with [AfterId]; [op] is [>] ascending and [<] descending.
    On the rows (1,a),(1,b),(2,c),(3,d), ascending, afterId=a and
    afterValue=1 select b, c, d in this order. *)
Theorem C6_forward_cursor (listParams : ListParams) (b : building) :
  AfterId listParams <> ""%string ->
  (forall afterValue,
      AfterValue listParams = Some afterValue ->
      List_after listParams b
      = ((fst b ++ " AND "
            ++ render (keyset_expr (SortBy listParams) (after_op (SortOrder listParams))))%string,
         snd b ++ [afterValue; VStr (AfterId listParams); afterValue])
      /\ forall r rest,
           eval (keyset_expr (SortBy listParams) (after_op (SortOrder listParams))) r
             ([afterValue; VStr (AfterId listParams); afterValue] ++ rest)
           = (keyset_rule (after_op (SortOrder listParams))
                (column r (SortBy listParams)) afterValue
                (column r "typeId") (VStr (AfterId listParams)), rest))
  /\ (AfterValue listParams = None ->
      List_after listParams b
      = ((fst b ++ " AND "
            ++ render (ECmp "typeId" (after_op (SortOrder listParams))))%string,
         snd b ++ [VStr (AfterId listParams)])
      /\ forall r rest,
           eval (ECmp "typeId" (after_op (SortOrder listParams))) r
             (VStr (AfterId listParams) :: rest)
           = (holds (after_op (SortOrder listParams))
                (column r "typeId") (VStr (AfterId listParams)), rest))
  /\ after_op middleware.SortOrderAsc = OpGt
  /\ after_op middleware.SortOrderDesc = OpLt
  /\ List_selects four_rows forward_request = inr [VStr "b"; VStr "c"; VStr "d"].
Proof.
  intros Hid.
  assert (E : (AfterId listParams =? "")%string = false)
    by (apply String.eqb_neq; exact Hid).
  destruct b as [query replacements]. cbn [fst snd].
  repeat split.
  - unfold List_after. rewrite E, H. cbn [negb].
    destruct (SortOrder listParams); cbn;
      repeat (cbn; rewrite ?append_assoc, ?append_empty); reflexivity.
  - intros r rest. apply keyset_expr_meaning.
  - unfold List_after. rewrite E, H. cbn [negb].
    destruct (SortOrder listParams); cbn; reflexivity.
Qed.

Lemma C6_forward_cursor_witness :
  List_after forward_request (List_base_query, [])
  = ((List_base_query ++ " AND (createdAt > ? OR (typeId > ? AND createdAt = ?))")%string,
     [VInt 1; VStr "a"; VInt 1]).
Proof.
  assert (Hid : AfterId forward_request <> ""%string) by discriminate.
  exact (proj1 (proj1 (C6_forward_cursor forward_request (List_base_query, []) Hid)
                  (VInt 1) eq_refl)).
Defined.

(** The block for [BeforeId] with [BeforeValue] present is the forward
    block with the operator turned round, and the backward scenario
    selects a, b. *)
Lemma List_before_with_value (listParams : ListParams) (b : building)
    (beforeValue : value) :
  BeforeId listParams <> ""%string ->
  BeforeValue listParams = Some beforeValue ->
  List_before listParams b
  = ((fst b ++ " AND "
        ++ render (keyset_expr (SortBy listParams) (before_op (SortOrder listParams))))%string,
     snd b ++ [beforeValue; VStr (BeforeId listParams); beforeValue]).
Proof.
  intros Hid Hv.
  assert (E : (BeforeId listParams =? "")%string = false)
    by (apply String.eqb_neq; exact Hid).
  destruct b as [query replacements]. unfold List_before. rewrite E, Hv. cbn [negb].
  destruct (SortOrder listParams); cbn;
    repeat (cbn; rewrite ?append_assoc, ?append_empty); reflexivity.
Qed.

Lemma backward_scenario :
  List_selects four_rows backward_request = inr [VStr "a"; VStr "b"].
Proof. reflexivity. Qed.

(** C3.  With [BeforeId] set and [BeforeValue] absent, [List] compares
    [typeId] with a replacement that is [AfterId], not [BeforeId]: for
    beforeId=c on the rows (1,a),(1,b),(2,c),(3,d) the statement is
    [... AND typeId < ? ...] with the empty [AfterId] bound, and it selects
    nothing, where the same statement with [BeforeId] bound selects a, b. *)
Theorem C3_backward_cursor_without_value_binds_AfterId :
  List_build backward_by_id_request
  = ((List_base_query
        ++ " AND typeId < ? ORDER BY createdAt ASC, typeId ASC LIMIT ?")%string,
     [VStr (AfterId backward_by_id_request); VInt 10])
  /\ AfterId backward_by_id_request = ""%string
  /\ BeforeId backward_by_id_request = "c"%string
  /\ List_selects four_rows backward_by_id_request = inr []
  /\ selected_ids (exec_select four_rows (List_stmt backward_by_id_request)
                     [VStr (BeforeId backward_by_id_request); VInt 10])
     = inr [VStr "a"; VStr "b"].
Proof. repeat split. Qed.

(** C4.  With free text, [List] writes one [typeId LIKE ?] and appends the
    search term twice: for the text "a" with the forward cursor afterId=a,
    afterValue=1 the statement has five placeholders and six replacements,
    the cursor's placeholders meet the replacements shifted by one, and the
    store refuses the statement. *)
Theorem C4_search_term_bound_twice :
  List_build search_forward_request
  = ((List_base_query
        ++ " AND typeId LIKE ? AND (createdAt > ? OR (typeId > ? AND createdAt = ?))"
        ++ " ORDER BY createdAt ASC, typeId ASC LIMIT ?")%string,
     [VStr "%a%"; VStr "%a%"; VInt 1; VStr "a"; VInt 1; VInt 10])
  /\ count_marks (fst (List_build search_forward_request)) = 5
  /\ length (snd (List_build search_forward_request)) = 6
  /\ exec_select four_rows (List_stmt search_forward_request)
       (snd (List_build search_forward_request))
     = inl (WrongArgumentCount 5 6).
Proof. repeat split. Qed.






(** ** What [List] returns *)

(** [List] hands the statement and the replacements to the store and
    returns its rows; the store's no-rows answer is an empty list and no
    error. *)
Lemma List_returns_rows (drv : Driver) (ctx : context) (listParams : ListParams)
    (w : World) (rows : list row) :
  drv_Select drv (handle_of ctx)
    (sent_query drv ctx (fst (List_build listParams)))
    (snd (List_build listParams)) w = (rows, None) ->
  fst (List drv ctx listParams w) = Normal (rows, None).
Proof.
  unfold List. destruct (List_build listParams) as [query replacements].
  cbn [fst snd].
  unfold SQL_SelectContext, handle_of, sent_query, getQueryableFromContext,
    queryable_SelectContext, SqlTx_SelectContext.
  destruct (tx_of_context ctx) as [[tx] |]; unfold bind, call, ret; cbn;
    intros ->; reflexivity.
Qed.

Lemma List_no_rows_is_empty (drv : Driver) (ctx : context)
    (listParams : ListParams) (w : World) (rows : list row) :
  drv_Select drv (handle_of ctx)
    (sent_query drv ctx (fst (List_build listParams)))
    (snd (List_build listParams)) w = (rows, Some ErrNoRows) ->
  fst (List drv ctx listParams w) = Normal ([], None).
Proof.
  unfold List. destruct (List_build listParams) as [query replacements].
  cbn [fst snd].
  unfold SQL_SelectContext, handle_of, sent_query, getQueryableFromContext,
    queryable_SelectContext, SqlTx_SelectContext.
  destruct (tx_of_context ctx) as [[tx] |]; unfold bind, call, ret; cbn;
    intros ->; reflexivity.
Qed.

(** * Further properties of the code *)

(** ** The transaction scope manager, continued *)

(** X1.  When the begin fails, [WithinTransaction] returns the store's
    error under the message "Error beginning sql transaction", the
    sentinel included; the unit of work does not run, and nothing is
    committed or rolled back: the log gains the failed begin and nothing
    else. *)
Theorem X1_begin_failure_aborts (drv : Driver) (ctx : context)
    (txFunc : context -> M (option error)) (w : World) (e : error) :
  tx_of_context ctx = None ->
  drv_Beginx drv w = Some e ->
  WithinTransaction drv ctx txFunc w
  = (Normal (Some (wrapped ["Error beginning sql transaction"%string] e)),
     w ++ [EvBeginx (Some e)])
  /\ is_ErrNoRows (wrapped ["Error beginning sql transaction"%string] e) = false
  /\ Cause (wrapped ["Error beginning sql transaction"%string] e) = Cause e.
Proof.
  intros Htx Hb. repeat split.
  unfold WithinTransaction. rewrite Htx. unfold bind, Beginx. rewrite Hb. reflexivity.
Qed.

Lemma X1_begin_failure_aborts_witness :
  WithinTransaction begin_fails Background work_panics []
  = (Normal (Some (wrapped ["Error beginning sql transaction"%string]
                     (DriverError "too many connections"))),
     [EvBeginx (Some (DriverError "too many connections"))]).
Proof.
  exact (proj1 (X1_begin_failure_aborts begin_fails Background work_panics []
                  (DriverError "too many connections") eq_refl eq_refl)).
Defined.

(** X2.  A statement executed by the unit of work of an outermost call
    goes to the transaction that call began, between the begin and the
    end of it.  When the statement succeeds the transaction is committed;
    when it fails the transaction is rolled back and the call returns the
    statement's error: the sentinel as it is, any other error under the
    messages of [SqlTx] and of [SQL]. *)
Theorem X2_statement_runs_in_the_transaction (drv : Driver) (ctx : context)
    (query : string) (args : list value) (w : World) :
  tx_of_context ctx = None ->
  drv_Beginx drv w = None ->
  let tx := begins w in
  let sent := Rebind drv (Rebind drv query) in
  let w1 := w ++ [EvBeginx None] in
  let w2 := w1 ++ [EvStmt (OnTx tx) OpExec sent args] in
  WithinTransaction drv ctx (exec_in_tx drv query args) w
  = match snd (drv_Exec drv (OnTx tx) sent args w1) with
    | None => (Normal None, w2 ++ commit_events drv tx w2)
    | Some e =>
        (Normal (Some (if is_ErrNoRows e then e
                       else wrapped ["Error when calling sql ExecContext"%string;
                                     "sql error"%string] e)),
         w2 ++ rollback_events drv tx w2)
    end.
Proof.
  intros Htx Hb tx sent w1 w2.
  assert (Hrun : exec_in_tx drv query args (child_context ctx w) w1
                 = (Normal (match snd (drv_Exec drv (OnTx tx) sent args w1) with
                            | None => None
                            | Some e =>
                                Some (if is_ErrNoRows e then e
                                      else wrapped ["Error when calling sql ExecContext"%string;
                                                    "sql error"%string] e)
                            end), w2)).
  { unfold exec_in_tx, SQL_ExecContext, getQueryableFromContext,
      queryable_ExecContext, SqlTx_ExecContext, bind, call, ret.
    cbn -[begins]. fold tx. fold sent. fold w1.
    destruct (drv_Exec drv (OnTx tx) sent args w1) as [result [[] |]]; reflexivity. }
  destruct (snd (drv_Exec drv (OnTx tx) sent args w1)) as [e |].
  - exact (WithinTransaction_rolls_back drv ctx _ w w2 _ Htx Hb Hrun).
  - exact (WithinTransaction_commits drv ctx _ w w2 Htx Hb Hrun).
Qed.

Lemma X2_statement_runs_in_the_transaction_witness :
  WithinTransaction exec_fails Background
    (exec_in_tx exec_fails "DELETE FROM role WHERE id = ?" [VInt 7]) []
  = (Normal (Some (wrapped ["Error when calling sql ExecContext"%string;
                            "sql error"%string] (DriverError "deadlock"))),
     [EvBeginx None;
      EvStmt (OnTx 0) OpExec "DELETE FROM role WHERE id = ?" [VInt 7];
      EvRollback 0 None]).
Proof.
  exact (X2_statement_runs_in_the_transaction exec_fails Background
           "DELETE FROM role WHERE id = ?" [VInt 7] [] eq_refl eq_refl).
Defined.

(** ** Capability operations that do not keep the sentinel *)

(** X3.  [PrepareContext] wraps every error of the store, the no-rows
    sentinel too: what it returns is never the sentinel, on the transaction
    handle and on the connection handle, and a nil error stays nil. *)
Theorem X3_prepare_wraps_every_error (drv : Driver) (q : SqlTx) (ctx : context)
    (query : string) (w : World) :
  fst (SqlTx_PrepareContext drv q ctx query w)
  = Normal (Rebind drv query,
            match drv_Prepare drv (OnTx (Tx q)) (Rebind drv query) w with
            | Some e => Some (wrapped ["sql error"%string] e)
            | None => None
            end)
  /\ fst (SQL_PrepareContext drv ctx query w)
     = Normal (sent_query drv ctx query,
               match drv_Prepare drv (handle_of ctx) (sent_query drv ctx query) w with
               | Some e =>
                   Some (wrapped (layer_messages ctx
                                    "Error when calling sql PrepareContext") e)
               | None => None
               end)
  /\ (forall messages e,
        messages <> [] -> is_ErrNoRows (wrapped messages e) = false).
Proof.
  repeat split.
  - unfold SqlTx_PrepareContext, bind, call, ret. cbn.
    destruct (drv_Prepare drv (OnTx (Tx q)) (Rebind drv query) w); reflexivity.
  - unfold SQL_PrepareContext, handle_of, sent_query, layer_messages,
      getQueryableFromContext, queryable_PrepareContext, SqlTx_PrepareContext.
    destruct (tx_of_context ctx) as [[tx] |]; unfold bind, call, ret; cbn;
      match goal with
      | |- context [drv_Prepare ?d ?h ?t ?w0] => destruct (drv_Prepare d h t w0)
      end; reflexivity.
  - intros [| m rest] e Hne; [contradiction | reflexivity].
Qed.

(** X4.  [QueryRowContext] classifies nothing: on either handle the row
    and the error of the store come back as they are, unwrapped, for the
    caller that reads the row. *)
Theorem X4_query_row_defers_errors (drv : Driver) (ctx : context)
    (query : string) (args : list value) (w : World) :
  SQL_QueryRowContext drv ctx query args w
  = (Normal (drv_QueryRow drv (handle_of ctx) (sent_query drv ctx query) args w),
     w ++ [EvStmt (handle_of ctx) OpQueryRow (sent_query drv ctx query) args]).
Proof.
  unfold SQL_QueryRowContext, handle_of, sent_query, getQueryableFromContext,
    queryable_QueryRowContext, SqlTx_QueryRowContext, call.
  destruct (tx_of_context ctx) as [[tx] |]; reflexivity.
Qed.

(** ** The object type repository, continued *)

Ltac through_sql :=
  unfold through_layers, layer_messages, handle_of, sent_query,
    SQL_ExecContext, SQL_GetContext, SQL_SelectContext,
    getQueryableFromContext, queryable_ExecContext, queryable_GetContext,
    queryable_SelectContext, SqlTx_ExecContext, SqlTx_GetContext,
    SqlTx_SelectContext;
  match goal with
  | |- context [tx_of_context ?c] => destruct (tx_of_context c) as [[tx] |]
  end;
  unfold bind, call, ret; cbn;
  match goal with
  | |- context [drv_Exec ?d ?h ?q ?a ?w] =>
      destruct (drv_Exec d h q a w) as [? [[] |]]
  | |- context [drv_Get ?d ?h ?q ?a ?w] =>
      destruct (drv_Get d h q a w) as [? [[] |]]
  | |- context [drv_Select ?d ?h ?q ?a ?w] =>
      destruct (drv_Select d h q a w) as [? [[] |]]
  end; cbn.

(** X5.  [GetById] and [GetByTypeId], inside or outside a transaction,
    return the row the store filled in together with: nil for nil; the
    typed not-found result, carrying the key asked for, exactly for the
    store's no-rows sentinel; and any other error of the store still
    wrapped, [GetByTypeId] adding its own message with the typeId on top of
    the messages of the layers below. *)
Theorem X5_get_reports_not_found (drv : Driver) (ctx : context) (id : Z)
    (typeId : string) (w : World) :
  (let answer := drv_Get drv (handle_of ctx) (sent_query drv ctx GetById_query)
                   [VInt id] w in
   fst (GetById drv ctx id w)
   = Normal (fst answer,
             match snd answer with
             | None => None
             | Some e =>
                 if is_ErrNoRows e
                 then Some (RecordNotFoundError "ObjectType" (VInt id))
                 else Some (wrapped (layer_messages ctx
                                       "Error when calling sql GetContext") e)
             end))
  /\ (let answer := drv_Get drv (handle_of ctx)
                      (sent_query drv ctx GetByTypeId_query) [VStr typeId] w in
      fst (GetByTypeId drv ctx typeId w)
      = Normal (fst answer,
                match snd answer with
                | None => None
                | Some e =>
                    if is_ErrNoRows e
                    then Some (RecordNotFoundError "ObjectType" (VStr typeId))
                    else Some (wrapped
                                 (("Unable to get ObjectType with typeId "
                                     ++ typeId ++ " from mysql")%string
                                  :: layer_messages ctx
                                       "Error when calling sql GetContext") e)
                end)).
Proof.
  split.
  - unfold GetById. generalize GetById_query as text. intros text.
    through_sql; reflexivity.
  - unfold GetByTypeId. generalize GetByTypeId_query as text. intros text.
    through_sql; reflexivity.
Qed.

(** X6.  [Create] returns the identifier of the result only when both the
    statement and [LastInsertId] succeed.  With any error the identifier is
    0; an error of the statement comes back under "Unable to create object
    type", the no-rows sentinel included, so [Create] never returns the
    sentinel itself; an error of [LastInsertId] comes back as it is. *)
Theorem X6_create_result (drv : Driver) (LastInsertId_error : Result -> option error)
    (ctx : context) (model : Model) (w : World) :
  let answer := drv_Exec drv (handle_of ctx) (sent_query drv ctx Create_query)
                  [VStr (GetTypeId model); VStr (GetDefinition model);
                   VStr (GetDefinition model)] w in
  fst (Create drv LastInsertId_error ctx model w)
  = Normal
      match snd answer with
      | Some e =>
          (0%Z,
           Some (wrapped
                   ("Unable to create object type"%string
                    :: (if is_ErrNoRows e then []
                        else layer_messages ctx "Error when calling sql ExecContext"))
                   e))
      | None =>
          match LastInsertId_error (fst answer) with
          | Some e => (0%Z, Some e)
          | None => (LastInsertId (fst answer), None)
          end
      end.
Proof.
  unfold Create. generalize Create_query as text. intros text.
  through_sql; try reflexivity;
    match goal with
    | |- context [LastInsertId_error ?r] => destruct (LastInsertId_error r)
    end; reflexivity.
Qed.

(** X7.  [UpdateByTypeId] returns nil exactly when the statement's error
    is nil, whatever the number of rows the store reports as affected, so
    updating an object type that does not exist is a success; every error,
    the no-rows sentinel too, comes back under "Error updating object type"
    followed by the typeId, never as a typed not-found result. *)
Theorem X7_update_result (drv : Driver) (ctx : context) (typeId : string)
    (model : Model) (w : World) :
  let answer := drv_Exec drv (handle_of ctx)
                  (sent_query drv ctx UpdateByTypeId_query)
                  [VStr (GetDefinition model); VStr typeId] w in
  fst (UpdateByTypeId drv ctx typeId model w)
  = Normal
      match snd answer with
      | Some e =>
          Some (wrapped
                  (("Error updating object type " ++ typeId)%string
                   :: (if is_ErrNoRows e then []
                       else layer_messages ctx "Error when calling sql ExecContext"))
                  e)
      | None => None
      end.
Proof.
  unfold UpdateByTypeId. generalize UpdateByTypeId_query as text. intros text.
  through_sql; reflexivity.
Qed.

(** X8.  [List] returns rows and an error never together: the rows of the
    store with a nil error; for the store's no-rows sentinel an empty list
    and a nil error; for any other error an empty list, whatever rows the
    store had filled in, and that error under "Unable to get object types
    from mysql" on top of the messages of the layers below. *)
Theorem X8_list_result (drv : Driver) (ctx : context) (listParams : ListParams)
    (w : World) :
  let answer := drv_Select drv (handle_of ctx)
                  (sent_query drv ctx (fst (List_build listParams)))
                  (snd (List_build listParams)) w in
  fst (List drv ctx listParams w)
  = Normal
      match snd answer with
      | None => (fst answer, None)
      | Some e =>
          if is_ErrNoRows e then ([], None)
          else ([], Some (wrapped
                            ("Unable to get object types from mysql"%string
                             :: layer_messages ctx
                                  "Error when calling sql SelectContext") e))
      end.
Proof.
  unfold List. destruct (List_build listParams) as [query replacements].
  cbn [fst snd]. through_sql; reflexivity.
Qed.

(** ** The order of rows *)

Lemma ascii_compare_refl (a : ascii) : Ascii.compare a a = Eq.
Proof. unfold Ascii.compare. apply N.compare_refl. Qed.

Lemma ascii_compare_lt_trans (a b c : ascii) :
  Ascii.compare a b = Lt -> Ascii.compare b c = Lt -> Ascii.compare a c = Lt.
Proof.
  unfold Ascii.compare. rewrite !N.compare_lt_iff. apply N.lt_trans.
Qed.

Lemma string_compare_lt_trans (a b c : string) :
  String.compare a b = Lt -> String.compare b c = Lt -> String.compare a c = Lt.
Proof.
  revert b c. induction a as [| x a IH]; intros [| y b] [| z c]; cbn;
    try discriminate; try reflexivity.
  destruct (Ascii.compare x y) eqn:Exy; try discriminate;
    destruct (Ascii.compare y z) eqn:Eyz; try discriminate.
  - apply Ascii.compare_eq_iff in Exy, Eyz. subst.
    rewrite ascii_compare_refl. apply IH.
  - apply Ascii.compare_eq_iff in Exy. subst. rewrite Eyz. reflexivity.
  - apply Ascii.compare_eq_iff in Eyz. subst. rewrite Exy. reflexivity.
  - rewrite (ascii_compare_lt_trans x y z Exy Eyz). reflexivity.
Qed.

Lemma string_compare_refl (a : string) : String.compare a a = Eq.
Proof.
  induction a as [| x a IH]; cbn; [reflexivity |].
  now rewrite ascii_compare_refl.
Qed.

Lemma compare_value_total (k : kind) (a b : value) :
  kind_of a = Some k -> kind_of b = Some k ->
  exists c, compare_value a b = Some c.
Proof.
  destruct a, b, k; cbn; try discriminate; intros _ _; eexists; reflexivity.
Qed.

Lemma compare_value_antisym (a b : value) (c : comparison) :
  compare_value a b = Some c -> compare_value b a = Some (CompOpp c).
Proof.
  destruct a, b; cbn; try discriminate; intros H; injection H as <-; f_equal.
  - apply Z.compare_antisym.
  - apply String.compare_antisym.
  - apply Z.compare_antisym.
Qed.

Lemma compare_value_eq (a b : value) :
  compare_value a b = Some Eq -> a = b.
Proof.
  destruct a, b; cbn; try discriminate; intros H; injection H as H; f_equal.
  - now apply Z.compare_eq.
  - now apply String.compare_eq_iff.
  - now apply Z.compare_eq.
Qed.

Lemma compare_value_refl (k : kind) (a : value) :
  kind_of a = Some k -> compare_value a a = Some Eq.
Proof.
  destruct a; cbn; try discriminate; intros _; f_equal.
  - apply Z.compare_refl.
  - apply string_compare_refl.
  - apply Z.compare_refl.
Qed.

Lemma compare_value_lt_trans (a b c : value) :
  compare_value a b = Some Lt -> compare_value b c = Some Lt ->
  compare_value a c = Some Lt.
Proof.
  destruct a, b, c; cbn; try discriminate; intros H1 H2;
    injection H1 as H1; injection H2 as H2; f_equal.
  - rewrite Z.compare_lt_iff in *. lia.
  - exact (string_compare_lt_trans _ _ _ H1 H2).
  - rewrite Z.compare_lt_iff in *. lia.
Qed.

Section KeyOrder.

Variable k : kind.
Variable sortBy : string.

Lemma key_compare_total (r1 r2 : row) :
  orderable k sortBy r1 -> orderable k sortBy r2 ->
  exists c, key_compare sortBy r1 r2 = Some c.
Proof.
  intros (Hs1 & Hi1 & _) (Hs2 & Hi2 & _). unfold key_compare.
  destruct (compare_value_total k _ _ Hs1 Hs2) as [[] ->];
    try (eexists; reflexivity).
  exact (compare_value_total KStr _ _ Hi1 Hi2).
Qed.

Lemma key_compare_antisym (r1 r2 : row) (c : comparison) :
  key_compare sortBy r1 r2 = Some c ->
  key_compare sortBy r2 r1 = Some (CompOpp c).
Proof.
  unfold key_compare.
  destruct (compare_value (column r1 sortBy) (column r2 sortBy)) as [[] |] eqn:E;
    try discriminate; rewrite (compare_value_antisym _ _ _ E); cbn.
  - apply compare_value_antisym.
  - intros H. injection H as <-. reflexivity.
  - intros H. injection H as <-. reflexivity.
Qed.

Lemma key_compare_eq (r1 r2 : row) :
  key_compare sortBy r1 r2 = Some Eq ->
  column r1 sortBy = column r2 sortBy
  /\ column r1 "typeId" = column r2 "typeId".
Proof.
  unfold key_compare.
  destruct (compare_value (column r1 sortBy) (column r2 sortBy)) as [[] |] eqn:E;
    try discriminate.
  intros H. split; now apply compare_value_eq.
Qed.

Lemma key_compare_refl (r : row) :
  orderable k sortBy r -> key_compare sortBy r r = Some Eq.
Proof.
  intros (Hs & Hi & _). unfold key_compare.
  rewrite (compare_value_refl k _ Hs). exact (compare_value_refl KStr _ Hi).
Qed.

Lemma key_compare_eq_l (r1 r2 r3 : row) :
  key_compare sortBy r1 r2 = Some Eq ->
  key_compare sortBy r1 r3 = key_compare sortBy r2 r3.
Proof.
  intros H. apply key_compare_eq in H as [Hs Hi].
  unfold key_compare. now rewrite Hs, Hi.
Qed.

Lemma key_compare_eq_r (r1 r2 r3 : row) :
  key_compare sortBy r2 r3 = Some Eq ->
  key_compare sortBy r1 r2 = key_compare sortBy r1 r3.
Proof.
  intros H. apply key_compare_eq in H as [Hs Hi].
  unfold key_compare. now rewrite Hs, Hi.
Qed.

Lemma key_compare_lt_trans (r1 r2 r3 : row) :
  key_compare sortBy r1 r2 = Some Lt ->
  key_compare sortBy r2 r3 = Some Lt ->
  key_compare sortBy r1 r3 = Some Lt.
Proof.
  unfold key_compare.
  destruct (compare_value (column r1 sortBy) (column r2 sortBy)) as [[] |] eqn:E12;
    try discriminate;
    destruct (compare_value (column r2 sortBy) (column r3 sortBy)) as [[] |] eqn:E23;
    try discriminate; intros H1 H2.
  - apply compare_value_eq in E12. rewrite E12, E23.
    exact (compare_value_lt_trans _ _ _ H1 H2).
  - apply compare_value_eq in E12. rewrite E12, E23. reflexivity.
  - apply compare_value_eq in E23. rewrite <- E23, E12. reflexivity.
  - rewrite (compare_value_lt_trans _ _ _ E12 E23). reflexivity.
Qed.

End KeyOrder.

Section RowOrder.

Variable k : kind.
Variable sortBy : string.
Variable o : middleware.SortOrder.

Lemma row_leb_key (r1 r2 : row) (c : comparison) :
  key_compare sortBy r1 r2 = Some c ->
  row_leb (key_terms sortBy o) r1 r2 = leb_of o c.
Proof.
  unfold key_compare, key_terms, row_leb.
  destruct (compare_value (column r1 sortBy) (column r2 sortBy)) as [[] |];
    intros H; try discriminate.
  - rewrite H. destruct c, o; reflexivity.
  - injection H as <-. destruct o; reflexivity.
  - injection H as <-. destruct o; reflexivity.
Qed.

Lemma row_leb_total (r1 r2 : row) :
  orderable k sortBy r1 -> orderable k sortBy r2 ->
  row_leb (key_terms sortBy o) r1 r2 = false ->
  row_leb (key_terms sortBy o) r2 r1 = true.
Proof.
  intros H1 H2.
  destruct (key_compare_total k sortBy r1 r2 H1 H2) as [c Hc].
  rewrite (row_leb_key r1 r2 c Hc).
  rewrite (row_leb_key r2 r1 _ (key_compare_antisym sortBy r1 r2 c Hc)).
  destruct c, o; cbn; congruence.
Qed.

Lemma row_leb_refl (r : row) :
  orderable k sortBy r -> row_leb (key_terms sortBy o) r r = true.
Proof.
  intros H. rewrite (row_leb_key r r Eq (key_compare_refl k sortBy r H)).
  reflexivity.
Qed.

Lemma row_leb_trans (r1 r2 r3 : row) :
  orderable k sortBy r1 -> orderable k sortBy r2 -> orderable k sortBy r3 ->
  row_leb (key_terms sortBy o) r1 r2 = true ->
  row_leb (key_terms sortBy o) r2 r3 = true ->
  row_leb (key_terms sortBy o) r1 r3 = true.
Proof.
  intros H1 H2 H3.
  destruct (key_compare_total k sortBy r1 r2 H1 H2) as [c12 E12].
  destruct (key_compare_total k sortBy r2 r3 H2 H3) as [c23 E23].
  destruct (key_compare_total k sortBy r1 r3 H1 H3) as [c13 E13].
  rewrite (row_leb_key _ _ _ E12), (row_leb_key _ _ _ E23), (row_leb_key _ _ _ E13).
  destruct c12.
  - rewrite (key_compare_eq_l sortBy r1 r2 r3 E12), E23 in E13.
    injection E13 as <-. auto.
  - destruct c23.
    + rewrite <- (key_compare_eq_r sortBy r1 r2 r3 E23), E12 in E13.
      injection E13 as <-. auto.
    + rewrite (key_compare_lt_trans sortBy r1 r2 r3 E12 E23) in E13.
      injection E13 as <-. auto.
    + destruct o; cbn; congruence.
  - destruct c23.
    + rewrite <- (key_compare_eq_r sortBy r1 r2 r3 E23), E12 in E13.
      injection E13 as <-. auto.
    + destruct o; cbn; congruence.
    + pose proof (key_compare_antisym sortBy _ _ _ E12) as A12.
      pose proof (key_compare_antisym sortBy _ _ _ E23) as A23.
      pose proof (key_compare_lt_trans sortBy r3 r2 r1 A23 A12) as A13.
      apply key_compare_antisym in A13. rewrite A13 in E13.
      injection E13 as <-. auto.
Qed.

Lemma row_leb_antisym (r1 r2 : row) :
  orderable k sortBy r1 -> orderable k sortBy r2 ->
  row_leb (key_terms sortBy o) r1 r2 = true ->
  row_leb (key_terms sortBy o) r2 r1 = true ->
  column r1 "typeId" = column r2 "typeId".
Proof.
  intros H1 H2.
  destruct (key_compare_total k sortBy r1 r2 H1 H2) as [c Hc].
  rewrite (row_leb_key r1 r2 c Hc).
  rewrite (row_leb_key r2 r1 _ (key_compare_antisym sortBy r1 r2 c Hc)).
  destruct c; [intros _ _; now apply (key_compare_eq sortBy) | |];
    destruct o; cbn; congruence.
Qed.

(** The keyset rules are the strict order of [ORDER BY]. *)
Lemma after_rule_is_strictly_after (r cursor : row) :
  orderable k sortBy r -> orderable k sortBy cursor ->
  keyset_rule (after_op o) (column r sortBy) (column cursor sortBy)
    (column r "typeId") (column cursor "typeId")
  = negb (row_leb (key_terms sortBy o) r cursor).
Proof.
  intros (Hs & _) (Hs' & _).
  apply forward_cursor_selects_rows_after.
  destruct (compare_value_total k _ _ Hs Hs') as [c ->]. discriminate.
Qed.

Lemma before_rule_is_strictly_before (r cursor : row) :
  orderable k sortBy r -> orderable k sortBy cursor ->
  keyset_rule (before_op o) (column r sortBy) (column cursor sortBy)
    (column r "typeId") (column cursor "typeId")
  = negb (row_leb (key_terms sortBy o) cursor r).
Proof.
  intros (Hs & Hi & _) (Hs' & Hi' & _).
  destruct (compare_value_total k _ _ Hs Hs') as [c1 E1].
  destruct (compare_value_total KStr _ _ Hi Hi') as [c2 E2].
  unfold keyset_rule, holds, key_terms, row_leb.
  rewrite E1, E2, (compare_value_antisym _ _ _ E1), (compare_value_antisym _ _ _ E2).
  destruct c1, c2, o; reflexivity.
Qed.

End RowOrder.

(** *** Sorting and filtering *)

Section InsertionSort.

Variable terms : list (string * middleware.SortOrder).
Variable P : row -> Prop.

Let le (a b : row) : Prop := row_leb terms a b = true.

Hypothesis total :
  forall a b, P a -> P b -> row_leb terms a b = false -> row_leb terms b a = true.
Hypothesis trans :
  forall a b c, P a -> P b -> P c ->
    row_leb terms a b = true -> row_leb terms b c = true ->
    row_leb terms a c = true.

Lemma insert_row_perm (r : row) (l : list row) :
  Permutation (insert_row terms r l) (r :: l).
Proof.
  induction l as [| x l IH]; cbn; [reflexivity |].
  destruct (row_leb terms r x); [reflexivity |].
  rewrite IH. apply perm_swap.
Qed.

Lemma order_by_perm (l : list row) : Permutation (order_by terms l) l.
Proof.
  induction l as [| x l IH]; cbn; [reflexivity |].
  fold (order_by terms l). rewrite insert_row_perm. now rewrite IH.
Qed.

Lemma insert_row_sorted (r : row) (l : list row) :
  P r -> Forall P l -> StronglySorted le l ->
  StronglySorted le (insert_row terms r l).
Proof.
  intros Hr Hl Hs. induction Hs as [| x l Hs IH Hx]; cbn.
  - constructor; constructor.
  - inversion Hl as [| ? ? Px Pl]; subst.
    destruct (row_leb terms r x) eqn:E.
    + constructor; [now constructor |].
      constructor; [exact E |].
      rewrite Forall_forall in *. intros y Hy.
      apply (trans r x y);
        [exact Hr | exact Px | now apply Pl | exact E | now apply Hx].
    + constructor; [now apply IH |].
      apply (Permutation_Forall (Permutation_sym (insert_row_perm r l))).
      constructor; [| exact Hx].
      now apply total.
Qed.

Lemma order_by_sorted (l : list row) :
  Forall P l -> StronglySorted le (order_by terms l).
Proof.
  induction l as [| x l IH]; intros Hl; cbn; [constructor |].
  inversion Hl; subst. fold (order_by terms l).
  apply insert_row_sorted; auto.
  apply (Permutation_Forall (Permutation_sym (order_by_perm l))). assumption.
Qed.

Lemma insert_row_least (r : row) (l : list row) :
  Forall (le r) l -> insert_row terms r l = r :: l.
Proof.
  destruct l as [| x l]; [reflexivity |].
  intros H. inversion H as [| ? ? Hx _]; subst. cbn.
  unfold le in Hx. now rewrite Hx.
Qed.

Lemma filter_insert_row_out (p : row -> bool) (r : row) (l : list row) :
  p r = false -> filter p (insert_row terms r l) = filter p l.
Proof.
  intros Hp. induction l as [| x l IH]; cbn; [now rewrite Hp |].
  destruct (row_leb terms r x); cbn; [now rewrite Hp |].
  now rewrite IH.
Qed.

Lemma filter_insert_row_in (p : row -> bool) (r : row) (l : list row) :
  p r = true -> P r -> Forall P l -> StronglySorted le l ->
  insert_row terms r (filter p l) = filter p (insert_row terms r l).
Proof.
  intros Hp Hr Hl Hs. induction Hs as [| x l Hs IH Hx]; cbn.
  - now rewrite Hp.
  - inversion Hl as [| ? ? Px Pl]; subst.
    destruct (row_leb terms r x) eqn:E; cbn; rewrite ?Hp.
    + destruct (p x); cbn; [now rewrite E |].
      apply insert_row_least.
      rewrite Forall_forall in *. intros y Hy.
      apply filter_In in Hy as [Hy _].
      apply (trans r x y);
        [exact Hr | exact Px | now apply Pl | exact E | now apply Hx].
    + destruct (p x); cbn; [rewrite E |]; now rewrite IH.
Qed.

Lemma order_by_filter (p : row -> bool) (l : list row) :
  Forall P l -> order_by terms (filter p l) = filter p (order_by terms l).
Proof.
  induction l as [| x l IH]; intros Hl; cbn; [reflexivity |].
  inversion Hl; subst. fold (order_by terms l).
  destruct (p x) eqn:Hp; cbn.
  - fold (order_by terms (filter p l)). rewrite IH by assumption.
    apply filter_insert_row_in; auto.
    + apply (Permutation_Forall (Permutation_sym (order_by_perm l))). assumption.
    + now apply order_by_sorted.
  - rewrite filter_insert_row_out by assumption. now apply IH.
Qed.

End InsertionSort.


(** *** Pages *)

Lemma filter_all {A : Type} (p : A -> bool) (l : list A) :
  Forall (fun x => p x = true) l -> filter p l = l.
Proof.
  induction 1 as [| x l Hx _ IH]; cbn; [reflexivity |]. now rewrite Hx, IH.
Qed.

Lemma filter_none {A : Type} (p : A -> bool) (l : list A) :
  Forall (fun x => p x = false) l -> filter p l = [].
Proof.
  induction 1 as [| x l Hx _ IH]; cbn; [reflexivity |]. now rewrite Hx, IH.
Qed.

Section Pages.

Variable k : kind.
Variable sortBy : string.
Variable o : middleware.SortOrder.

Lemma same_typeId_in (c : row) (l : list row) :
  ~ In (column c "typeId") (typeIds l) ->
  forall y, In y l -> column y "typeId" <> column c "typeId".
Proof.
  intros Hn y Hy E. apply Hn. unfold typeIds. rewrite <- E.
  now apply (in_map (fun r => column r "typeId")).
Qed.

Lemma rows_after_cursor (pre post : list row) (c : row) :
  Forall (orderable k sortBy) (pre ++ c :: post) ->
  StronglySorted (fun a b => row_leb (key_terms sortBy o) a b = true)
    (pre ++ c :: post) ->
  NoDup (typeIds (pre ++ c :: post)) ->
  filter (fun r => negb (row_leb (key_terms sortBy o) r c)) (pre ++ c :: post)
  = post.
Proof.
  induction pre as [| x pre IH]; cbn [app]; intros HP HS HN.
  - inversion HP as [| ? ? Pc Ppost]; subst.
    inversion HS as [| ? ? _ Hc]; subst.
    cbn in HN. apply NoDup_cons_iff in HN as [Hnot _].
    cbn [filter]. rewrite (row_leb_refl k sortBy o c Pc). cbn [negb].
    apply filter_all. rewrite Forall_forall in *. intros y Hy.
    destruct (row_leb (key_terms sortBy o) y c) eqn:E; [| reflexivity].
    exfalso. apply (same_typeId_in c post Hnot y Hy).
    apply (row_leb_antisym k sortBy o y c); auto.
  - inversion HP as [| ? ? Px Prest]; subst.
    inversion HS as [| ? ? HS' Hx]; subst.
    cbn in HN. apply NoDup_cons_iff in HN as [_ HN'].
    cbn [filter].
    assert (Hxc : row_leb (key_terms sortBy o) x c = true).
    { rewrite Forall_forall in Hx. apply Hx. apply in_or_app. right. now left. }
    rewrite Hxc. cbn [negb]. now apply IH.
Qed.

Lemma rows_before_cursor (pre post : list row) (c : row) :
  Forall (orderable k sortBy) (pre ++ c :: post) ->
  StronglySorted (fun a b => row_leb (key_terms sortBy o) a b = true)
    (pre ++ c :: post) ->
  NoDup (typeIds (pre ++ c :: post)) ->
  filter (fun r => negb (row_leb (key_terms sortBy o) c r)) (pre ++ c :: post)
  = pre.
Proof.
  induction pre as [| x pre IH]; cbn [app]; intros HP HS HN.
  - inversion HP as [| ? ? Pc Ppost]; subst.
    inversion HS as [| ? ? _ Hc]; subst.
    cbn [filter]. rewrite (row_leb_refl k sortBy o c Pc). cbn [negb].
    apply filter_none. rewrite Forall_forall in *. intros y Hy.
    now rewrite (Hc y Hy).
  - inversion HP as [| ? ? Px Prest]; subst.
    inversion HS as [| ? ? HS' Hx]; subst.
    cbn in HN. apply NoDup_cons_iff in HN as [Hnot HN'].
    assert (Pc : orderable k sortBy c).
    { rewrite Forall_forall in Prest. apply Prest. apply in_or_app. right. now left. }
    assert (Hxc : row_leb (key_terms sortBy o) x c = true).
    { rewrite Forall_forall in Hx. apply Hx. apply in_or_app. right. now left. }
    cbn [filter].
    destruct (row_leb (key_terms sortBy o) c x) eqn:E.
    + exfalso. apply (same_typeId_in x (pre ++ c :: post) Hnot c).
      * apply in_or_app. right. now left.
      * apply (row_leb_antisym k sortBy o c x); auto.
    + cbn [negb]. f_equal. now apply IH.
Qed.

(** What [ORDER BY] makes of an orderable table with distinct typeIds. *)
Lemma ordered_table (table : list row) :
  Forall (orderable k sortBy) table ->
  NoDup (typeIds table) ->
  Forall (orderable k sortBy) (order_by (key_terms sortBy o) table)
  /\ StronglySorted (fun a b => row_leb (key_terms sortBy o) a b = true)
       (order_by (key_terms sortBy o) table)
  /\ NoDup (typeIds (order_by (key_terms sortBy o) table)).
Proof.
  intros HP HN. repeat split.
  - apply (Permutation_Forall (Permutation_sym (order_by_perm _ table))). exact HP.
  - apply (order_by_sorted _ (orderable k sortBy)); auto.
    + apply (row_leb_total k sortBy o).
    + apply (row_leb_trans k sortBy o).
  - apply (Permutation_NoDup
             (Permutation_map (fun r => column r "typeId")
                (Permutation_sym (order_by_perm (key_terms sortBy o) table)))).
    exact HN.
Qed.

Lemma order_by_filter_table (p : row -> bool) (table : list row) :
  Forall (orderable k sortBy) table ->
  order_by (key_terms sortBy o) (filter p table)
  = filter p (order_by (key_terms sortBy o) table).
Proof.
  apply (order_by_filter _ (orderable k sortBy)).
  - apply (row_leb_total k sortBy o).
  - apply (row_leb_trans k sortBy o).
Qed.

End Pages.

(** A statement with as many arguments as placeholders and a limit that
    is not negative runs: filter, order, cut. *)
Lemma exec_select_runs (table : list row) (s : select_stmt)
    (args : list value) (limit : Z) :
  length args = S (where_placeholders (sel_where s)) ->
  nth (where_placeholders (sel_where s)) args VNull = VInt limit ->
  (0 <= limit)%Z ->
  exec_select table s args
  = inr (firstn (Z.to_nat limit)
           (order_by (sel_order s)
              (filter (fun r => is_null (column r "deletedAt")
                                && fst (eval_where (sel_where s) r args)) table))).
Proof.
  intros Hlen Hnth Hlim. unfold exec_select.
  rewrite Hlen, Nat.eqb_refl. cbn [negb]. rewrite Hnth.
  destruct (Z.ltb_spec limit 0); [lia | reflexivity].
Qed.

Lemma eqb_empty_false (s : string) : s <> ""%string -> (s =? "")%string = false.
Proof. intros H. now apply String.eqb_neq. Qed.

(** The condition of a request with one cursor, on a row. *)
Lemma cursor_condition (sortBy : string) (op : cmpop) (r : row)
    (v : value) (cursorId : string) (limit : Z) :
  fst (eval_where [keyset_expr sortBy op] r [v; VStr cursorId; v; VInt limit])
  = keyset_rule op (column r sortBy) v (column r "typeId") (VStr cursorId).
Proof.
  unfold eval_where.
  change [v; VStr cursorId; v; VInt limit]
    with ([v; VStr cursorId; v] ++ [VInt limit]).
  rewrite keyset_expr_meaning. cbn [fst]. apply andb_true_r.
Qed.



(** X10.  The page after a cursor row continues exactly where that row
    stands.  On a table of live rows with distinct typeIds and sort values
    of one kind, let the rows in the order of [sortBy], [typeId] be
    [pre], then the cursor row, then [post].  A request without free text
    whose [AfterId] and [AfterValue] are the typeId and the sort value of
    the cursor row selects the first [Limit] rows of [post], in that order:
    no row before the cursor or the cursor itself, none left out, ascending
    and descending alike, also when many rows share the cursor's sort
    value. *)
Theorem X10_forward_page_continues (k : kind) (listParams : ListParams)
    (table pre post : list row) (cursor : row) :
  Query listParams = ""%string ->
  BeforeId listParams = ""%string ->
  (SortBy listParams =? "objectType")%string = false ->
  (0 <= Limit listParams)%Z ->
  Forall (orderable k (SortBy listParams)) table ->
  NoDup (typeIds table) ->
  order_by (key_terms (SortBy listParams) (SortOrder listParams)) table
    = pre ++ cursor :: post ->
  AfterId listParams <> ""%string ->
  column cursor "typeId" = VStr (AfterId listParams) ->
  AfterValue listParams = Some (column cursor (SortBy listParams)) ->
  exec_select table (List_stmt listParams) (snd (List_build listParams))
  = inr (firstn (Z.to_nat (Limit listParams)) post).
Proof.
  intros Hq Hb Hs Hl HP HN Hsorted Ha Hid Hv.
  pose proof (eqb_empty_false _ Ha) as Ha'.
  assert (Hstmt : List_stmt listParams
                  = mkSelect [keyset_expr (SortBy listParams)
                                (after_op (SortOrder listParams))]
                      (key_terms (SortBy listParams) (SortOrder listParams))).
  { unfold List_stmt, search_conjuncts, cursor_conjuncts, order_terms.
    rewrite Hq, Ha', Hb, Hs, Hv. reflexivity. }
  assert (Hargs : snd (List_build listParams)
                  = [column cursor (SortBy listParams); VStr (AfterId listParams);
                     column cursor (SortBy listParams); VInt (Limit listParams)]).
  { rewrite List_build_args. unfold search_args, after_args, before_args.
    rewrite Hq, Ha', Hb, Hv. reflexivity. }
  rewrite Hstmt, Hargs.
  rewrite (exec_select_runs table _ _ (Limit listParams)) by (cbn; auto).
  cbn [sel_order sel_where]. do 2 f_equal.
  destruct (ordered_table k (SortBy listParams) (SortOrder listParams) table HP HN)
    as (HP' & HS' & HN').
  rewrite Hsorted in HP', HS', HN'.
  assert (Pc : orderable k (SortBy listParams) cursor).
  { rewrite Forall_forall in HP'. apply HP'. apply in_or_app. right. now left. }
  rewrite (filter_ext_in _
             (fun r => negb (row_leb (key_terms (SortBy listParams)
                                        (SortOrder listParams)) r cursor))).
  - rewrite (order_by_filter_table k) by exact HP.
    rewrite Hsorted. now apply (rows_after_cursor k).
  - intros r Hr. rewrite Forall_forall in HP. specialize (HP r Hr).
    destruct HP as (Hk & Hi & Hd). rewrite Hd. cbn [is_null andb].
    rewrite cursor_condition, <- Hid.
    apply (after_rule_is_strictly_after k); [repeat split; assumption | exact Pc].
Qed.

Lemma X10_forward_page_continues_witness :
  selected_ids
    (exec_select tied_rows (List_stmt after_x_request)
       (snd (List_build after_x_request)))
  = inr [VStr "z"].
Proof.
  rewrite (X10_forward_page_continues KInt after_x_request tied_rows
             [objectType_row 10 "y"] [objectType_row 5 "z"]
             (objectType_row 10 "x")).
  - reflexivity.
  - reflexivity.
  - reflexivity.
  - reflexivity.
  - cbn. lia.
  - repeat constructor.
  - repeat constructor; cbn; intuition discriminate.
  - reflexivity.
  - discriminate.
  - reflexivity.
  - reflexivity.
Defined.

(** X11.  The page before a cursor row starts at the far end.  On the same
    kind of table, a request without free text whose [BeforeId] and
    [BeforeValue] are the typeId and the sort value of the cursor row
    selects rows that stand before the cursor only, but it takes the first
    [Limit] of them in the order of the statement: the rows from the start
    of the table, not the rows next to the cursor. *)
Theorem X11_backward_page_starts_at_the_front (k : kind) (listParams : ListParams)
    (table pre post : list row) (cursor : row) :
  Query listParams = ""%string ->
  AfterId listParams = ""%string ->
  (SortBy listParams =? "objectType")%string = false ->
  (0 <= Limit listParams)%Z ->
  Forall (orderable k (SortBy listParams)) table ->
  NoDup (typeIds table) ->
  order_by (key_terms (SortBy listParams) (SortOrder listParams)) table
    = pre ++ cursor :: post ->
  BeforeId listParams <> ""%string ->
  column cursor "typeId" = VStr (BeforeId listParams) ->
  BeforeValue listParams = Some (column cursor (SortBy listParams)) ->
  exec_select table (List_stmt listParams) (snd (List_build listParams))
  = inr (firstn (Z.to_nat (Limit listParams)) pre).
Proof.
  intros Hq Ha Hs Hl HP HN Hsorted Hb Hid Hv.
  pose proof (eqb_empty_false _ Hb) as Hb'.
  assert (Hstmt : List_stmt listParams
                  = mkSelect [keyset_expr (SortBy listParams)
                                (before_op (SortOrder listParams))]
                      (key_terms (SortBy listParams) (SortOrder listParams))).
  { unfold List_stmt, search_conjuncts, cursor_conjuncts, order_terms.
    rewrite Hq, Ha, Hb', Hs, Hv. reflexivity. }
  assert (Hargs : snd (List_build listParams)
                  = [column cursor (SortBy listParams); VStr (BeforeId listParams);
                     column cursor (SortBy listParams); VInt (Limit listParams)]).
  { rewrite List_build_args. unfold search_args, after_args, before_args.
    rewrite Hq, Ha, Hb', Hv. reflexivity. }
  rewrite Hstmt, Hargs.
  rewrite (exec_select_runs table _ _ (Limit listParams)) by (cbn; auto).
  cbn [sel_order sel_where]. do 2 f_equal.
  destruct (ordered_table k (SortBy listParams) (SortOrder listParams) table HP HN)
    as (HP' & HS' & HN').
  rewrite Hsorted in HP', HS', HN'.
  assert (Pc : orderable k (SortBy listParams) cursor).
  { rewrite Forall_forall in HP'. apply HP'. apply in_or_app. right. now left. }
  rewrite (filter_ext_in _
             (fun r => negb (row_leb (key_terms (SortBy listParams)
                                        (SortOrder listParams)) cursor r))).
  - rewrite (order_by_filter_table k) by exact HP.
    rewrite Hsorted. now apply (rows_before_cursor k).
  - intros r Hr. rewrite Forall_forall in HP. specialize (HP r Hr).
    destruct HP as (Hk & Hi & Hd). rewrite Hd. cbn [is_null andb].
    rewrite cursor_condition, <- Hid.
    apply (before_rule_is_strictly_before k); [repeat split; assumption | exact Pc].
Qed.

Lemma X11_backward_page_starts_at_the_front_witness :
  selected_ids
    (exec_select four_rows (List_stmt before_d_request)
       (snd (List_build before_d_request)))
  = inr [VStr "a"].
Proof.
  rewrite (X11_backward_page_starts_at_the_front KInt before_d_request four_rows
             [objectType_row 1 "a"; objectType_row 1 "b"; objectType_row 2 "c"]
             [] (objectType_row 3 "d")).
  - reflexivity.
  - reflexivity.
  - reflexivity.
  - reflexivity.
  - cbn. lia.
  - repeat constructor.
  - repeat constructor; cbn; intuition discriminate.
  - reflexivity.
  - discriminate.
  - reflexivity.
  - reflexivity.
Defined.



(** ** Nesting *)

Lemma nested_on_transaction (drv : Driver) (work : context -> M (option error))
    (n : nat) (ctx : context) (tx : SqlTx) (w : World) :
  tx_of_context ctx = Some tx ->
  nested drv n work ctx w = work ctx w.
Proof.
  intros Htx. induction n as [| n IH]; [reflexivity |].
  cbn [nested]. now rewrite (WithinTransaction_reuse drv ctx tx).
Qed.

(** X13.  Nesting is transparent.  A unit of work wrapped in any number
    of further [WithinTransaction] calls, each passing its context on, is
    to the outermost call the unit of work itself: the same result or
    panic and the same log, whether the begin succeeds or fails and
    whether or not the context already carries a transaction. *)
Theorem X13_nesting_is_transparent (drv : Driver) (ctx : context)
    (work : context -> M (option error)) (n : nat) (w : World) :
  WithinTransaction drv ctx (nested drv n work) w
  = WithinTransaction drv ctx work w.
Proof.
  destruct (tx_of_context ctx) as [tx |] eqn:Htx.
  - rewrite !(WithinTransaction_reuse drv ctx tx) by exact Htx.
    now apply (nested_on_transaction drv work n ctx tx).
  - unfold WithinTransaction. rewrite Htx. unfold bind, Beginx.
    destruct (drv_Beginx drv w); [reflexivity |].
    unfold with_defer.
    rewrite (nested_on_transaction drv work n _ (mkSqlTx (begins w)))
      by reflexivity.
    reflexivity.
Qed.

(** ** The role service *)

Section RoleServiceProperties.

Variable drv : Driver.
Variables RoleSpec Role : Type.
Variable ObjectTypeRole : string.
Variable NewRepository : M (option error).
Variable repo_List : context -> ListParams -> M (list Role * option error).
Variable repo_DeleteByRoleId : context -> string -> M (option error).
Variable objectSvc_DeleteByObjectTypeAndId :
  context -> string -> string -> M (option error).
Variable eventSvc_TrackResourceDeleted :
  context -> string -> string -> option RoleSpec -> M unit.
Variable ToRoleSpec : Role -> RoleSpec.

Let DeleteByRoleId_of :=
  RoleService_DeleteByRoleId drv RoleSpec ObjectTypeRole NewRepository
    repo_DeleteByRoleId objectSvc_DeleteByObjectTypeAndId
    eventSvc_TrackResourceDeleted.

Let work_of :=
  RoleService_DeleteByRoleId_work RoleSpec ObjectTypeRole NewRepository
    repo_DeleteByRoleId objectSvc_DeleteByObjectTypeAndId
    eventSvc_TrackResourceDeleted.

Lemma DeleteByRoleId_is_the_transaction (ctx : context) (roleId : string)
    (w : World) :
  DeleteByRoleId_of ctx roleId w = WithinTransaction drv ctx (work_of roleId) w.
Proof.
  unfold DeleteByRoleId_of, work_of, RoleService_DeleteByRoleId, bind, ret.
  destruct (WithinTransaction drv ctx _ w) as [[err | p] w']; reflexivity.
Qed.

(** X14.  [DeleteByRoleId] is all or nothing on failure.  Called outside
    a transaction, when the role's row has been deleted and the object
    service then fails, the transaction is rolled back, taking the role's
    deletion with it; the error of the object service is returned as it
    is, and the deletion event is not tracked. *)
Theorem X14_role_delete_rolls_back (ctx : context) (roleId : string)
    (w w1 w2 w3 : World) (e : error) :
  tx_of_context ctx = None ->
  drv_Beginx drv w = None ->
  NewRepository (w ++ [EvBeginx None]) = (Normal None, w1) ->
  repo_DeleteByRoleId (child_context ctx w) roleId w1 = (Normal None, w2) ->
  objectSvc_DeleteByObjectTypeAndId (child_context ctx w) ObjectTypeRole roleId w2
    = (Normal (Some e), w3) ->
  RoleService_DeleteByRoleId drv RoleSpec ObjectTypeRole NewRepository
    repo_DeleteByRoleId objectSvc_DeleteByObjectTypeAndId
    eventSvc_TrackResourceDeleted ctx roleId w
  = (Normal (Some e), w3 ++ rollback_events drv (begins w) w3).
Proof.
  intros Htx Hb Hnew Hrepo Hobj.
  fold DeleteByRoleId_of. rewrite DeleteByRoleId_is_the_transaction.
  apply (WithinTransaction_rolls_back drv ctx _ w w3 e Htx Hb).
  unfold work_of, RoleService_DeleteByRoleId_work, bind, ret.
  now rewrite Hnew, Hrepo, Hobj.
Qed.

(** X15.  On success [DeleteByRoleId], called outside a transaction,
    deletes the role, deletes the object, tracks the deletion event with
    the context of the transaction, and only then commits; the statements
    of all three collaborators lie between the begin and the commit. *)
Theorem X15_role_delete_commits_last (ctx : context) (roleId : string)
    (w w1 w2 w3 w4 : World) :
  tx_of_context ctx = None ->
  drv_Beginx drv w = None ->
  NewRepository (w ++ [EvBeginx None]) = (Normal None, w1) ->
  repo_DeleteByRoleId (child_context ctx w) roleId w1 = (Normal None, w2) ->
  objectSvc_DeleteByObjectTypeAndId (child_context ctx w) ObjectTypeRole roleId w2
    = (Normal None, w3) ->
  eventSvc_TrackResourceDeleted (child_context ctx w) ResourceTypeRole roleId None w3
    = (Normal tt, w4) ->
  RoleService_DeleteByRoleId drv RoleSpec ObjectTypeRole NewRepository
    repo_DeleteByRoleId objectSvc_DeleteByObjectTypeAndId
    eventSvc_TrackResourceDeleted ctx roleId w
  = (Normal None, w4 ++ commit_events drv (begins w) w4).
Proof.
  intros Htx Hb Hnew Hrepo Hobj Hev.
  fold DeleteByRoleId_of. rewrite DeleteByRoleId_is_the_transaction.
  apply (WithinTransaction_commits drv ctx _ w w4 Htx Hb).
  unfold work_of, RoleService_DeleteByRoleId_work, bind, ret.
  now rewrite Hnew, Hrepo, Hobj, Hev.
Qed.

(** X16.  [RoleService.List] hides the failure of the repository: once
    the repository is built, the error it returns is nil whatever the
    repository's [List] answers, with an empty list when that answer is an
    error and the converted roles, in order, when it is not. *)
Theorem X16_role_list_swallows_errors (ctx : context) (listParams : ListParams)
    (w w1 : World) :
  NewRepository w = (Normal None, w1) ->
  match repo_List ctx listParams w1 with
  | (Normal (roles, None), w2) =>
      RoleService_List RoleSpec Role NewRepository repo_List ToRoleSpec
        ctx listParams w
      = (Normal (map ToRoleSpec roles, None), w2)
  | (Normal (roles, Some _), w2) =>
      RoleService_List RoleSpec Role NewRepository repo_List ToRoleSpec
        ctx listParams w
      = (Normal ([], None), w2)
  | (Panicking p, w2) =>
      RoleService_List RoleSpec Role NewRepository repo_List ToRoleSpec
        ctx listParams w
      = (Panicking p, w2)
  end.
Proof.
  intros Hnew. unfold RoleService_List, bind, ret. rewrite Hnew.
  destruct (repo_List ctx listParams w1) as [[[roles [e |]] | p] w2]; reflexivity.
Qed.

End RoleServiceProperties.

Lemma X14_role_delete_rolls_back_witness :
  RoleService_DeleteByRoleId healthy_driver string "role" (ret None)
    (stub_repo_DeleteByRoleId healthy_driver)
    (stub_objectSvc_Delete (Some (DriverError "object in use")))
    (stub_Track healthy_driver) Background "admin" []
  = (Normal (Some (DriverError "object in use")),
     [EvBeginx None;
      EvStmt (OnTx 0) OpExec "UPDATE role SET deletedAt = ? WHERE roleId = ?"
        [VTime 0; VStr "admin"];
      EvRollback 0 None]).
Proof.
  exact (X14_role_delete_rolls_back healthy_driver string "role" (ret None)
           (stub_repo_DeleteByRoleId healthy_driver)
           (stub_objectSvc_Delete (Some (DriverError "object in use")))
           (stub_Track healthy_driver) Background "admin"
           [] [EvBeginx None]
           [EvBeginx None;
            EvStmt (OnTx 0) OpExec "UPDATE role SET deletedAt = ? WHERE roleId = ?"
              [VTime 0; VStr "admin"]]
           [EvBeginx None;
            EvStmt (OnTx 0) OpExec "UPDATE role SET deletedAt = ? WHERE roleId = ?"
              [VTime 0; VStr "admin"]]
           (DriverError "object in use")
           eq_refl eq_refl eq_refl eq_refl eq_refl).
Defined.

Lemma X15_role_delete_commits_last_witness :
  RoleService_DeleteByRoleId healthy_driver string "role" (ret None)
    (stub_repo_DeleteByRoleId healthy_driver)
    (stub_objectSvc_Delete None)
    (stub_Track healthy_driver) Background "admin" []
  = (Normal None,
     [EvBeginx None;
      EvStmt (OnTx 0) OpExec "UPDATE role SET deletedAt = ? WHERE roleId = ?"
        [VTime 0; VStr "admin"];
      EvStmt (OnTx 0) OpExec
        "INSERT INTO event (type, resourceType, resourceId) VALUES (?, ?, ?)"
        [VStr "deleted"; VStr "role"; VStr "admin"];
      EvCommit 0 None]).
Proof.
  exact (X15_role_delete_commits_last healthy_driver string "role" (ret None)
           (stub_repo_DeleteByRoleId healthy_driver)
           (stub_objectSvc_Delete None)
           (stub_Track healthy_driver) Background "admin"
           [] [EvBeginx None]
           [EvBeginx None;
            EvStmt (OnTx 0) OpExec "UPDATE role SET deletedAt = ? WHERE roleId = ?"
              [VTime 0; VStr "admin"]]
           [EvBeginx None;
            EvStmt (OnTx 0) OpExec "UPDATE role SET deletedAt = ? WHERE roleId = ?"
              [VTime 0; VStr "admin"]]
           [EvBeginx None;
            EvStmt (OnTx 0) OpExec "UPDATE role SET deletedAt = ? WHERE roleId = ?"
              [VTime 0; VStr "admin"];
            EvStmt (OnTx 0) OpExec
              "INSERT INTO event (type, resourceType, resourceId) VALUES (?, ?, ?)"
              [VStr "deleted"; VStr "role"; VStr "admin"]]
           eq_refl eq_refl eq_refl eq_refl eq_refl eq_refl).
Defined.

Lemma X16_role_list_swallows_errors_witness :
  RoleService_List string string (ret None)
    (stub_repo_List (["admin"%string], Some (DriverError "connection reset")))
    (fun role => role) Background forward_request []
  = (Normal ([], None), []).
Proof.
  exact (X16_role_list_swallows_errors string string (ret None)
           (stub_repo_List (["admin"%string], Some (DriverError "connection reset")))
           (fun role => role) Background forward_request [] [] eq_refl).
Defined.

(** ** Nullable strings *)

(** X17.  The JSON form of a [NullString] is stable.  When
    [json.Unmarshal] reads null as a nil pointer and reads back the string
    [json.Marshal] wrote, unmarshalling what [MarshalJSON] wrote, into any
    receiver, succeeds, gives the same validity, gives the same struct when
    it is valid, and marshals again to the same JSON.  A struct that is not
    valid is written as null whatever its string, and reading null keeps
    the string the receiver already had. *)
Theorem X17_null_string_json_is_stable
    (json_Marshal : string -> string * option error)
    (json_Unmarshal : string -> option string * option error)
    (s receiver : NullString) :
  json_Unmarshal "null"%string = (None, None) ->
  snd (json_Marshal (String_ s)) = None ->
  json_Unmarshal (fst (json_Marshal (String_ s))) = (Some (String_ s), None) ->
  let data := fst (NullString_MarshalJSON json_Marshal s) in
  let read := NullString_UnmarshalJSON json_Unmarshal receiver data in
  snd read = None
  /\ Valid (fst read) = Valid s
  /\ (Valid s = true -> fst read = s)
  /\ (Valid s = false -> data = "null"%string /\ String_ (fst read) = String_ receiver)
  /\ NullString_MarshalJSON json_Marshal (fst read)
     = NullString_MarshalJSON json_Marshal s.
Proof.
  intros Hnull Hok Hback. destruct s as [str [|]]; cbn in *.
  - unfold NullString_MarshalJSON, NullString_UnmarshalJSON. cbn.
    rewrite Hback. cbn. repeat split; discriminate.
  - unfold NullString_MarshalJSON, NullString_UnmarshalJSON. cbn.
    rewrite Hnull. cbn. repeat split; discriminate.
Qed.

Lemma X17_null_string_json_is_stable_witness :
  fst (NullString_UnmarshalJSON plain_Unmarshal (mkNullString "stale" false)
         (fst (NullString_MarshalJSON plain_Marshal (mkNullString "admin" true))))
  = mkNullString "admin" true.
Proof.
  exact (proj1 (proj2 (proj2
           (X17_null_string_json_is_stable plain_Marshal plain_Unmarshal
              (mkNullString "admin" true) (mkNullString "stale" false)
              eq_refl eq_refl eq_refl))) eq_refl).
Defined.

(** ** The statement interceptor *)

Lemma slow_threshold (duration : Z) :
  (50 <? Milliseconds duration)%Z = true <-> (51000000 <= duration)%Z.
Proof.
  unfold Milliseconds. rewrite Z.ltb_lt. split; intros H.
  - destruct (Z_lt_le_dec duration 51000000) as [Hlt | Hge]; [| exact Hge].
    exfalso.
    destruct (Z_lt_le_dec duration 0) as [Hneg | Hpos].
    + pose proof (Z.quot_opp_l duration 1000000 ltac:(lia)) as Hq.
      assert (0 <= Z.quot (- duration) 1000000)%Z by (apply Z.quot_pos; lia).
      lia.
    + assert (Z.quot duration 1000000 <= Z.quot 50999999 1000000)%Z
        by (apply Z.quot_le_mono; lia).
      change (Z.quot 50999999 1000000) with 50%Z in *. lia.
  - assert (Z.quot 51000000 1000000 <= Z.quot duration 1000000)%Z
      by (apply Z.quot_le_mono; lia).
    change (Z.quot 51000000 1000000) with 51%Z in *. lia.
Qed.

(** X18.  The interceptor only watches.  [StmtQueryContext] and
    [StmtExecContext] return what the wrapped statement returned, error
    included, whatever time it took.  They log one warning, carrying that
    error and duration, exactly when the statement took 51 ms or more: the
    threshold is compared in whole milliseconds, so 50.999999 ms is not
    slow. *)
Theorem X18_interceptor_observes (Rows ExecResult : Type)
    (normalize : string -> string) (show_args : list value -> string)
    (ctx : context)
    (queryConn : context -> list value -> Rows * option error * Z)
    (execConn : context -> list value -> ExecResult * option error * Z)
    (query : string) (args : list value) (warnings : list SlowQuery) :
  (let '(rows, err, duration) := queryConn ctx args in
   fst (StmtQueryContext Rows normalize show_args ctx queryConn query args warnings)
   = (ctx, rows, err)
   /\ snd (StmtQueryContext Rows normalize show_args ctx queryConn query args warnings)
      = if (51000000 <=? duration)%Z
        then warnings ++ [mkSlowQuery (normalize query) (show_args args) err duration]
        else warnings)
  /\ (let '(result, err, duration) := execConn ctx args in
      fst (StmtExecContext ExecResult normalize show_args ctx execConn query args warnings)
      = (result, err)
      /\ snd (StmtExecContext ExecResult normalize show_args ctx execConn query args warnings)
         = if (51000000 <=? duration)%Z
           then warnings ++ [mkSlowQuery (normalize query) (show_args args) err duration]
           else warnings).
Proof.
  unfold StmtQueryContext, StmtExecContext.
  destruct (queryConn ctx args) as [[rows err] d].
  destruct (execConn ctx args) as [[result err'] d'].
  split.
  - destruct (50 <? Milliseconds d)%Z eqn:E, (Z.leb_spec 51000000 d) as [L | L];
      cbn; try (split; reflexivity).
    + apply slow_threshold in E. lia.
    + apply slow_threshold in L. congruence.
  - destruct (50 <? Milliseconds d')%Z eqn:E, (Z.leb_spec 51000000 d') as [L | L];
      cbn; try (split; reflexivity).
    + apply slow_threshold in E. lia.
    + apply slow_threshold in L. congruence.
Qed.

(** ** Placeholders and replacements *)

Lemma count_marks_app (a b : string) :
  count_marks (a ++ b) = count_marks a + count_marks b.
Proof.
  induction a as [| c a IH]; cbn; [reflexivity |]. rewrite IH. lia.
Qed.

(** X19.  For a [sortBy] without question marks, the text [List] builds
    has exactly as many [?] as there are replacements when the request has
    no free text, whatever cursors it has; with free text there is one
    replacement more than [?]. *)
Theorem X19_placeholders_and_replacements (listParams : ListParams) :
  count_marks (SortBy listParams) = 0 ->
  length (snd (List_build listParams))
  = count_marks (fst (List_build listParams))
    + (if (Query listParams =? "")%string then 0 else 1).
Proof.
  destruct listParams as [query sortBy order afterId afterValue beforeId beforeValue limit].
  cbn [SortBy Query]. intros Hs.
  unfold List_build, List_order, List_before, List_after, List_search.
  assert (Hb : count_marks List_base_query = 0) by reflexivity.
  revert Hb. generalize List_base_query as base. intros base Hb. cbn.
  destruct (query =? "")%string, (afterId =? "")%string, afterValue, order,
    (beforeId =? "")%string, beforeValue, (sortBy =? "objectType")%string;
    cbn; rewrite ?length_app; cbn;
    repeat (rewrite count_marks_app; cbn); rewrite ?Hs, ?Hb; lia.
Qed.

Lemma X19_placeholders_and_replacements_witness :
  length (snd (List_build search_forward_request))
  = count_marks (fst (List_build search_forward_request)) + 1.
Proof.
  exact (X19_placeholders_and_replacements search_forward_request eq_refl).
Defined.

(** ** Paging by identifier alone *)

Lemma id_rule_is_strictly_after (o : middleware.SortOrder) (r cursor : row) :
  orderable KStr "typeId" r -> orderable KStr "typeId" cursor ->
  holds (after_op o) (column r "typeId") (column cursor "typeId")
  = negb (row_leb (key_terms "typeId" o) r cursor).
Proof.
  intros (Hr & _) (Hc & _).
  destruct (compare_value_total KStr _ _ Hr Hc) as [c E].
  unfold holds, key_terms, row_leb. rewrite E.
  destruct c, o; reflexivity.
Qed.

(** X20.  Sorting by [typeId] with a cursor that is an identifier alone
    pages without gaps.  On a table of live rows with distinct typeIds, a
    request without free text, sorted by typeId, with [AfterId] the typeId
    of a row and no [AfterValue], selects the first [Limit] rows that follow
    that row in the order of typeId, ascending or descending. *)
Theorem X20_forward_page_by_id (listParams : ListParams)
    (table pre post : list row) (cursor : row) :
  Query listParams = ""%string ->
  BeforeId listParams = ""%string ->
  SortBy listParams = "typeId"%string ->
  (0 <= Limit listParams)%Z ->
  Forall (orderable KStr "typeId") table ->
  NoDup (typeIds table) ->
  order_by (order_terms listParams) table = pre ++ cursor :: post ->
  AfterId listParams <> ""%string ->
  column cursor "typeId" = VStr (AfterId listParams) ->
  AfterValue listParams = None ->
  exec_select table (List_stmt listParams) (snd (List_build listParams))
  = inr (firstn (Z.to_nat (Limit listParams)) post).
Proof.
  intros Hq Hb Hs Hl HP HN Hsorted Ha Hid Hv.
  pose proof (eqb_empty_false _ Ha) as Ha'.
  assert (Hterms : order_terms listParams = key_terms "typeId" (SortOrder listParams)).
  { unfold order_terms. rewrite Hs. reflexivity. }
  rewrite Hterms in Hsorted.
  assert (Hstmt : List_stmt listParams
                  = mkSelect [ECmp "typeId" (after_op (SortOrder listParams))]
                      (key_terms "typeId" (SortOrder listParams))).
  { unfold List_stmt, search_conjuncts, cursor_conjuncts.
    rewrite Hterms, Hq, Ha', Hb, Hv. reflexivity. }
  assert (Hargs : snd (List_build listParams)
                  = [VStr (AfterId listParams); VInt (Limit listParams)]).
  { rewrite List_build_args. unfold search_args, after_args, before_args.
    rewrite Hq, Ha', Hb, Hv. reflexivity. }
  rewrite Hstmt, Hargs.
  rewrite (exec_select_runs table _ _ (Limit listParams)) by (cbn; auto).
  cbn [sel_order sel_where]. do 2 f_equal.
  destruct (ordered_table KStr "typeId" (SortOrder listParams) table HP HN)
    as (HP' & HS' & HN').
  rewrite Hsorted in HP', HS', HN'.
  assert (Pc : orderable KStr "typeId" cursor).
  { rewrite Forall_forall in HP'. apply HP'. apply in_or_app. right. now left. }
  rewrite (filter_ext_in _
             (fun r => negb (row_leb (key_terms "typeId" (SortOrder listParams))
                               r cursor))).
  - rewrite (order_by_filter_table KStr) by exact HP.
    rewrite Hsorted. now apply (rows_after_cursor KStr).
  - intros r Hr. rewrite Forall_forall in HP. specialize (HP r Hr).
    destruct HP as (Hk & Hi & Hd). rewrite Hd. cbn [is_null andb].
    cbn [eval_where eval fst]. rewrite andb_true_r, <- Hid.
    apply id_rule_is_strictly_after; [repeat split; assumption | exact Pc].
Qed.

Lemma X20_forward_page_by_id_witness :
  selected_ids
    (exec_select four_rows
       (List_stmt (mkListParams "" "typeId" middleware.SortOrderDesc
                     "c" None "" None 1))
       (snd (List_build (mkListParams "" "typeId" middleware.SortOrderDesc
                           "c" None "" None 1))))
  = inr [VStr "b"].
Proof.
  rewrite (X20_forward_page_by_id
             (mkListParams "" "typeId" middleware.SortOrderDesc "c" None "" None 1)
             four_rows [objectType_row 3 "d"]
             [objectType_row 1 "b"; objectType_row 1 "a"]
             (objectType_row 2 "c")).
  - reflexivity.
  - reflexivity.
  - reflexivity.
  - reflexivity.
  - cbn. lia.
  - repeat constructor.
  - repeat constructor; cbn; intuition discriminate.
  - reflexivity.
  - discriminate.
  - reflexivity.
  - reflexivity.
Defined.
